(** * cloud_architecture_viz.py: the two diagram builders and the [main] flow

    A shallow embedding of [src/cloud_architecture_viz.py].  The script has
    three functions: [create_matplotlib_visualization] (static picture),
    [create_interactive_visualization] (Plotly figure over a networkx
    [DiGraph]) and [main], which sequences both, writes a PNG and an HTML page
    and opens the page in a browser.

    Conventions of the embedding.
    - Python [dict]s are association lists in insertion order ([dict V]);
      the order matters because [G.nodes()] and [G.edges()] iterate in it.
    - Python values stored in the node attribute dictionaries are [pyval]s.
    - Python [float]s are the kernel's binary64 floats; an [int] that the
      script mixes with floats in one tuple is written as the float of the
      same value.
    - A function that can raise returns [result A = exn + A].
    - [main] threads an explicit [State] (file system, standard output, log
      of library calls) under an [Env] that fixes what the outside world
      answers (clock, serialiser output, injected faults). *)

From Stdlib Require Import List String Ascii ZArith Bool Floats Permutation.
Import ListNotations.
Open Scope list_scope.
Open Scope string_scope.

Set Warnings "-inexact-float,-register-all".

(** ** Python exceptions *)

(** The exception classes that the script or the calls it makes can raise,
    with the parent of each in Python's hierarchy.  [InvalidEdgeError] is not
    a Python built-in and no statement of the script raises it: it names the
    dedicated validation error that section 4.2 of the specification asks
    for, and is used only by [checked_interactive_visualization] below. *)
Inductive exn_class : Set :=
| BaseException | SystemExit | KeyboardInterrupt
| Exception
| ImportError | ModuleNotFoundError
| LookupError | KeyError | IndexError
| OSError | FileExistsError | FileNotFoundError | PermissionError
| IsADirectoryError | NotADirectoryError
| TypeError | ValueError | RuntimeError
| WebbrowserError
| InvalidEdgeError.

Definition exn_class_eqb (c d : exn_class) : bool :=
  match c, d with
  | BaseException, BaseException | SystemExit, SystemExit
  | KeyboardInterrupt, KeyboardInterrupt | Exception, Exception
  | ImportError, ImportError | ModuleNotFoundError, ModuleNotFoundError
  | LookupError, LookupError | KeyError, KeyError | IndexError, IndexError
  | OSError, OSError | FileExistsError, FileExistsError
  | FileNotFoundError, FileNotFoundError | PermissionError, PermissionError
  | IsADirectoryError, IsADirectoryError
  | NotADirectoryError, NotADirectoryError
  | TypeError, TypeError | ValueError, ValueError
  | RuntimeError, RuntimeError | WebbrowserError, WebbrowserError
  | InvalidEdgeError, InvalidEdgeError => true
  | _, _ => false
  end.

Definition base_class (c : exn_class) : option exn_class :=
  match c with
  | BaseException => None
  | SystemExit | KeyboardInterrupt | Exception => Some BaseException
  | ImportError | LookupError | OSError | TypeError | ValueError
  | RuntimeError | WebbrowserError | InvalidEdgeError => Some Exception
  | ModuleNotFoundError => Some ImportError
  | KeyError | IndexError => Some LookupError
  | FileExistsError | FileNotFoundError | PermissionError
  | IsADirectoryError | NotADirectoryError => Some OSError
  end.

(** [issubclass c d], walking up from [c]; the hierarchy is four deep. *)
Fixpoint issubclass_fuel (fuel : nat) (c d : exn_class) : bool :=
  exn_class_eqb c d ||
  match fuel with
  | O => false
  | S fuel' =>
      match base_class c with
      | Some b => issubclass_fuel fuel' b d
      | None => false
      end
  end.

Definition issubclass : exn_class -> exn_class -> bool := issubclass_fuel 4.

(** An exception instance: its class and [str(e)]. *)
Record exn : Set := mk_exn { exn_cls : exn_class; exn_str : string }.

Definition isinstance (e : exn) (c : exn_class) : bool :=
  issubclass (exn_cls e) c.

Definition result (A : Type) : Type := (exn + A)%type.

Definition ok {A} (a : A) : result A := inr a.
Definition raise {A} (e : exn) : result A := inl e.

Definition bind {A B} (m : result A) (k : A -> result B) : result B :=
  match m with
  | inl e => inl e
  | inr a => k a
  end.

Notation "x <- m ;; k" := (bind m (fun x => k))
  (at level 61, m at next level, right associativity).
Notation "' pat <- m ;; k" := (bind m (fun x => match x with pat => k end))
  (at level 61, pat pattern, m at next level, right associativity).

(** A list comprehension whose element expression can raise: elements are
    evaluated left to right and the first exception ends the comprehension. *)
Fixpoint mapM {A B} (f : A -> result B) (l : list A) : result (list B) :=
  match l with
  | [] => ok []
  | a :: l' => b <- f a ;; bs <- mapM f l' ;; ok (b :: bs)
  end.

(** A [for] loop that updates an accumulator and can raise in its body. *)
Fixpoint foldM {A S} (body : S -> A -> result S) (l : list A) (s : S)
  : result S :=
  match l with
  | [] => ok s
  | a :: l' => s' <- body s a ;; foldM body l' s'
  end.

(** ** Python strings *)

Definition squote : string := String (ascii_of_nat 39) EmptyString.
Definition dquote : string := String (ascii_of_nat 34) EmptyString.
Definition newline : string := String (ascii_of_nat 10) EmptyString.

(** [repr] of a string of plain text (printable ASCII without quote or
    backslash, which [repr] puts between single quotes as it is), as
    [KeyError] shows its key. *)
Definition repr_str (s : string) : string := squote ++ s ++ squote.

Definition is_lower (c : ascii) : bool :=
  let n := nat_of_ascii c in (97 <=? n)%nat && (n <=? 122)%nat.
Definition is_upper (c : ascii) : bool :=
  let n := nat_of_ascii c in (65 <=? n)%nat && (n <=? 90)%nat.
Definition to_upper (c : ascii) : ascii :=
  if is_lower c then ascii_of_nat (nat_of_ascii c - 32) else c.
Definition to_lower (c : ascii) : ascii :=
  if is_upper c then ascii_of_nat (nat_of_ascii c + 32) else c.

(** [s.replace(old, new)] for one-character [old] and [new], the only way
    the script calls it. *)
Fixpoint replace (old new : ascii) (s : string) : string :=
  match s with
  | EmptyString => EmptyString
  | String c s' =>
      String (if Ascii.eqb c old then new else c) (replace old new s')
  end.

(** [s.title()] on ASCII text: a cased character that follows an uncased one
    (or starts the string) is upper-cased, one that follows a cased character
    is lower-cased, every other character is kept.  Bytes above 127 are
    treated as uncased; the identifiers of the script are ASCII. *)
Fixpoint title_from (previous_is_cased : bool) (s : string) : string :=
  match s with
  | EmptyString => EmptyString
  | String c s' =>
      if is_lower c || is_upper c then
        String (if previous_is_cased then to_lower c else to_upper c)
               (title_from true s')
      else String c (title_from false s')
  end.

Definition title : string -> string := title_from false.

(** ** Python dictionaries with string keys, in insertion order *)

Definition dict (V : Type) : Type := list (string * V).

Fixpoint dict_get {V} (d : dict V) (k : string) : option V :=
  match d with
  | [] => None
  | (k', v) :: d' => if String.eqb k' k then Some v else dict_get d' k
  end.

(** [k in d] *)
Definition dict_mem {V} (d : dict V) (k : string) : bool :=
  match dict_get d k with Some _ => true | None => false end.

(** [d[k] = v]: an existing key keeps its place, a new one goes last. *)
Fixpoint dict_set {V} (d : dict V) (k : string) (v : V) : dict V :=
  match d with
  | [] => [(k, v)]
  | (k', v') :: d' =>
      if String.eqb k' k then (k', v) :: d' else (k', v') :: dict_set d' k v
  end.

(** [d.update(other)] *)
Definition dict_update {V} (d other : dict V) : dict V :=
  fold_left (fun acc kv => dict_set acc (fst kv) (snd kv)) other d.

Definition dict_keys {V} (d : dict V) : list string := map fst d.

(** [d[k]], which raises [KeyError(k)] on a missing key. *)
Definition getitem {V} (d : dict V) (k : string) : result V :=
  match dict_get d k with
  | Some v => ok v
  | None => raise (mk_exn KeyError (repr_str k))
  end.

(** ** Values held in the node attribute dictionaries *)

Inductive pyval : Type :=
| VNone
| VInt (n : Z)
| VStr (s : string)
| VTuple (items : list pyval).

(** [a, b = v] for a tuple [v]; values of another shape do not occur in the
    tables and are answered with the exception a non-iterable gives. *)
Definition unpack2 (v : pyval) : result (pyval * pyval) :=
  match v with
  | VTuple [a; b] => ok (a, b)
  | VTuple _ =>
      raise (mk_exn ValueError "wrong number of values to unpack (expected 2)")
  | _ => raise (mk_exn TypeError "cannot unpack non-iterable object")
  end.

(** [v[i]] for a tuple [v]. *)
Definition subscript (v : pyval) (i : nat) : result pyval :=
  match v with
  | VTuple items =>
      match nth_error items i with
      | Some a => ok a
      | None => raise (mk_exn IndexError "tuple index out of range")
      end
  | _ => raise (mk_exn TypeError "object is not subscriptable")
  end.

(** ** networkx: the part of [DiGraph] the script uses

    [_node] maps a node to its attribute dictionary and [_succ] maps it to
    its successors; networkx inserts a node into both at once, so the two
    have the same keys in the same order.  The successors of a node are
    themselves a dictionary keyed by neighbour (the edge data the script never
    sets is left out), so an edge given twice is stored once.  [_pred] mirrors
    [_succ] and is never read by the script. *)

Record DiGraph : Type := mk_DiGraph {
  _node : dict (dict pyval);
  _succ : dict (list string)
}.

Definition empty_DiGraph : DiGraph := mk_DiGraph [] [].

Definition list_mem (k : string) (l : list string) : bool :=
  existsb (String.eqb k) l.

(** The common start of [add_node] and [add_edges_from]: a node not yet in
    the graph gets an empty attribute dictionary and no successors. *)
Definition touch_node (G : DiGraph) (n : string) : DiGraph :=
  if dict_mem (_succ G) n then G
  else mk_DiGraph (dict_set (_node G) n []) (dict_set (_succ G) n []).

(** [G.add_node(n, **attrs)], for attribute names that the call takes as
    keywords: [node_for_adding] and [self], the names of the method's own
    parameters, are refused by Python with a [TypeError] and are not among
    the names of the script. *)
Definition add_node (G : DiGraph) (n : string) (attrs : dict pyval)
  : DiGraph :=
  let G' := touch_node G n in
  let old := match dict_get (_node G') n with Some d => d | None => [] end in
  mk_DiGraph (dict_set (_node G') n (dict_update old attrs)) (_succ G').

(** One round of the loop of [G.add_edges_from]: both ends are added to the
    graph when missing, then [v] is recorded as a successor of [u]. *)
Definition add_edge (G : DiGraph) (e : string * string) : DiGraph :=
  let (u, v) := e in
  let G1 := touch_node G u in
  let G2 := touch_node G1 v in
  let nbrs := match dict_get (_succ G2) u with Some l => l | None => [] end in
  mk_DiGraph (_node G2)
             (dict_set (_succ G2) u
                       (if list_mem v nbrs then nbrs else (nbrs ++ [v])%list)).

Definition add_edges_from (G : DiGraph) (ebunch : list (string * string))
  : DiGraph :=
  fold_left add_edge ebunch G.

(** [G.nodes()] *)
Definition G_nodes (G : DiGraph) : list string := dict_keys (_node G).

(** [G.edges()]: for every node in order, its out-edges in order. *)
Definition G_edges (G : DiGraph) : list (string * string) :=
  flat_map (fun entry => map (pair (fst entry)) (snd entry)) (_succ G).

(** [nx.get_node_attributes(G, name)]: the nodes that have the attribute. *)
Fixpoint node_attributes (nd : dict (dict pyval)) (name : string)
  : dict pyval :=
  match nd with
  | [] => []
  | (n, d) :: nd' =>
      match dict_get d name with
      | Some v => (n, v) :: node_attributes nd' name
      | None => node_attributes nd' name
      end
  end.

Definition get_node_attributes (G : DiGraph) (name : string) : dict pyval :=
  node_attributes (_node G) name.

(** ** Plotly figures *)

(** [go.Scatter(...)]: the keyword arguments the script passes.  An entry of
    [x] or [y] is a number or [None] (a break in the line). *)
Record Marker : Type := mk_Marker {
  marker_size : list pyval;
  marker_color : list pyval;
  marker_line : Z * string            (* width, color *)
}.

Record Scatter : Type := mk_Scatter {
  sc_x : list pyval;
  sc_y : list pyval;
  sc_mode : string;
  sc_hoverinfo : string;
  sc_line : option (Z * string);      (* width, color *)
  sc_text : list string;
  sc_textposition : option string;
  sc_textfont : option (Z * string);  (* size, color *)
  sc_marker : option Marker
}.

Record Annotation : Type := mk_Annotation {
  an_text : string;
  an_showarrow : bool;
  an_xref : string; an_yref : string;
  an_x : float; an_y : float;
  an_xanchor : string; an_yanchor : string;
  an_font : string * Z                (* color, size *)
}.

Record Axis : Type := mk_Axis {
  showgrid : bool; zeroline : bool; showticklabels : bool
}.

Record Layout : Type := mk_Layout {
  title_text : string; title_x : float; title_font_size : Z;
  showlegend : bool;
  hovermode : string;
  margin : Z * Z * Z * Z;             (* b, l, r, t *)
  annotations : list Annotation;
  xaxis : Axis; yaxis : Axis;
  plot_bgcolor : string
}.

Record Figure : Type := mk_Figure {
  fig_data : list Scatter;
  fig_layout : Layout
}.

(** ** [create_interactive_visualization] *)

(** The [nodes] table of the script (lines 119-130). *)
Definition node_attrs (x y : Z) (color : string) (size : Z) : dict pyval :=
  [("pos", VTuple [VInt x; VInt y]); ("color", VStr color);
   ("size", VInt size)].

Definition nodes : dict (dict pyval) :=
  [("users", node_attrs 1 1 "#4CAF50" 30);
   ("cdn", node_attrs 1 3 "#607D8B" 25);
   ("load_balancer", node_attrs 2 5 "#607D8B" 25);
   ("web_server_1", node_attrs 4 6 "#2196F3" 25);
   ("web_server_2", node_attrs 4 4 "#2196F3" 25);
   ("api_gateway", node_attrs 4 2 "#607D8B" 25);
   ("app_server", node_attrs 6 5 "#FF9800" 30);
   ("database", node_attrs 8 6 "#9C27B0" 30);
   ("cache", node_attrs 8 4 "#F44336" 25);
   ("storage", node_attrs 6 2 "#795548" 25)].

(** The [edges] list of the script (lines 137-151). *)
Definition edges : list (string * string) :=
  [("users", "cdn");
   ("users", "load_balancer");
   ("users", "api_gateway");
   ("cdn", "load_balancer");
   ("load_balancer", "web_server_1");
   ("load_balancer", "web_server_2");
   ("web_server_1", "app_server");
   ("web_server_2", "app_server");
   ("app_server", "database");
   ("app_server", "cache");
   ("app_server", "storage");
   ("api_gateway", "storage");
   ("api_gateway", "app_server")].

(** Lines 116-153: the graph built from a node table and an edge list. *)
Definition build_graph (nodes : dict (dict pyval))
    (edges : list (string * string)) : DiGraph :=
  let G := fold_left (fun G na => add_node G (fst na) (snd na))
                     nodes empty_DiGraph in
  add_edges_from G edges.

(** Lines 161-167: the loop that extends [edge_x] and [edge_y]. *)
Definition edge_step (pos : dict pyval)
    (acc : list pyval * list pyval) (edge : string * string)
  : result (list pyval * list pyval) :=
  p0 <- getitem pos (fst edge) ;;
  '(x0, y0) <- unpack2 p0 ;;
  p1 <- getitem pos (snd edge) ;;
  '(x1, y1) <- unpack2 p1 ;;
  ok ((fst acc ++ [x0; x1; VNone])%list,
      (snd acc ++ [y0; y1; VNone])%list).

Definition interactive_layout : Layout :=
  mk_Layout "Interactive Cloud Architecture Visualization" 0.5%float 20
    false "closest" (20, 5, 5, 40)%Z
    [mk_Annotation "Click and drag to explore the architecture" false
       "paper" "paper" 0.005%float (-0.002)%float "left" "bottom"
       ("gray", 12%Z)]
    (mk_Axis false false false) (mk_Axis false false false)
    "white".

(** The body of [create_interactive_visualization] over its two tables.  The
    statements are in the order of the script, so that the first one to raise
    decides the exception.  The constructors of Plotly check the values they
    are given and are modelled on values of the kind the script gives them,
    which they accept: integer coordinates, hexadecimal colors, sizes that
    are not negative. *)
Definition interactive_visualization_of (nodes : dict (dict pyval))
    (edges : list (string * string)) : result Figure :=
  let G := build_graph nodes edges in
  let pos := get_node_attributes G "pos" in
  colors <- mapM (fun node => a <- getitem nodes node ;; getitem a "color")
                 (G_nodes G) ;;
  sizes <- mapM (fun node => a <- getitem nodes node ;; getitem a "size")
                (G_nodes G) ;;
  '(edge_x, edge_y) <- foldM (edge_step pos) (G_edges G) ([], []) ;;
  let edge_trace :=
    mk_Scatter edge_x edge_y "lines" "none" (Some (2%Z, "#888"))
               [] None None None in
  node_x <- mapM (fun node => p <- getitem pos node ;; subscript p 0)
                 (G_nodes G) ;;
  node_y <- mapM (fun node => p <- getitem pos node ;; subscript p 1)
                 (G_nodes G) ;;
  let node_trace :=
    mk_Scatter node_x node_y "markers+text" "text" None
               (map (fun node => title (replace "_" " " node)) (G_nodes G))
               (Some "middle center") (Some (10%Z, "white"))
               (Some (mk_Marker sizes colors (2%Z, "black"))) in
  ok (mk_Figure [edge_trace; node_trace] interactive_layout).

Definition create_interactive_visualization : result Figure :=
  interactive_visualization_of nodes edges.

(** ** matplotlib: what ends up on the axes *)

(** [patches.Rectangle((x, y), w, h, ...)]; the line style defaults to
    solid. *)
Record Rectangle : Type := mk_Rectangle {
  rect_xy : float * float;
  rect_width : float;
  rect_height : float;
  rect_linewidth : Z;
  rect_edgecolor : string;
  rect_facecolor : string;
  rect_alpha : float;
  rect_linestyle : string
}.

(** [ax.text(x, y, s, ...)]; [ha] and [va] default to left and baseline. *)
Record Text : Type := mk_Text {
  text_x : float;
  text_y : float;
  text_s : string;
  text_fontsize : Z;
  text_ha : string;
  text_va : string;
  text_weight : string;
  text_color : string
}.

(** [ax.annotate('', xy=..., xytext=..., arrowprops=...)]: an arrow from
    [xytext] to [xy]. *)
Record Arrow : Type := mk_Arrow {
  arrow_s : string;
  arrow_xy : float * float;
  arrow_xytext : float * float;
  arrow_style : string;
  arrow_lw : float;
  arrow_color : string
}.

Record Legend : Type := mk_Legend {
  legend_handles : list (string * string);   (* color, label *)
  legend_loc : string;
  legend_bbox_to_anchor : float * float
}.

Record Axes : Type := mk_Axes {
  ax_xlim : float * float;
  ax_ylim : float * float;
  ax_aspect : string;
  ax_patches : list Rectangle;
  ax_texts : list Text;
  ax_arrows : list Arrow;
  ax_title : string;
  ax_xlabel : string;
  ax_xticks : list float;
  ax_yticks : list float;
  ax_legend : option Legend
}.

Record MplFigure : Type := mk_MplFigure {
  mpl_figsize : Z * Z;
  mpl_axes : Axes;
  mpl_tight_layout : bool
}.

Definition add_patch (ax : Axes) (p : Rectangle) : Axes :=
  mk_Axes (ax_xlim ax) (ax_ylim ax) (ax_aspect ax)
    (ax_patches ax ++ [p])%list (ax_texts ax) (ax_arrows ax)
    (ax_title ax) (ax_xlabel ax) (ax_xticks ax) (ax_yticks ax) (ax_legend ax).

Definition add_text (ax : Axes) (t : Text) : Axes :=
  mk_Axes (ax_xlim ax) (ax_ylim ax) (ax_aspect ax)
    (ax_patches ax) (ax_texts ax ++ [t])%list (ax_arrows ax)
    (ax_title ax) (ax_xlabel ax) (ax_xticks ax) (ax_yticks ax) (ax_legend ax).

Definition annotate (ax : Axes) (a : Arrow) : Axes :=
  mk_Axes (ax_xlim ax) (ax_ylim ax) (ax_aspect ax)
    (ax_patches ax) (ax_texts ax) (ax_arrows ax ++ [a])%list
    (ax_title ax) (ax_xlabel ax) (ax_xticks ax) (ax_yticks ax) (ax_legend ax).

(** [set_title], [set_xlabel], [set_xticks([])], [set_yticks([])] and
    [legend] of lines 99-107, in one step; the font arguments of the title
    and of the label are left out. *)
Definition decorate (ax : Axes) (t xlabel : string) (l : Legend) : Axes :=
  mk_Axes (ax_xlim ax) (ax_ylim ax) (ax_aspect ax)
    (ax_patches ax) (ax_texts ax) (ax_arrows ax)
    t xlabel [] [] (Some l).

(** ** [create_matplotlib_visualization] *)

(** The [colors] dictionary (lines 35-43). *)
Definition colors : dict string :=
  [("user", "#4CAF50");
   ("web", "#2196F3");
   ("app", "#FF9800");
   ("db", "#9C27B0");
   ("cache", "#F44336");
   ("storage", "#795548");
   ("network", "#607D8B")].

(** A row of [components]: (x, y, width, height, label, color_key). *)
Record Component : Type := mk_Component {
  c_x : float; c_y : float; c_w : float; c_h : float;
  c_label : string; c_color_key : string
}.

(** The [components] list (lines 54-66). *)
Definition components : list Component :=
  [mk_Component 1 0.2 1.2 0.6 "Users" "user";
   mk_Component 1 5.5 1.5 0.8 "Load Balancer" "network";
   mk_Component 3.5 6 1.5 0.6 "Web Server 1" "web";
   mk_Component 3.5 5 1.5 0.6 "Web Server 2" "web";
   mk_Component 6 5.5 1.5 0.8 "App Server" "app";
   mk_Component 8 6 1.2 0.6 "Database" "db";
   mk_Component 8 4.5 1.2 0.6 "Redis Cache" "cache";
   mk_Component 6 3 1.5 0.8 "File Storage" "storage";
   mk_Component 3.5 2 1.5 0.6 "API Gateway" "network";
   mk_Component 1 2.5 1.5 0.6 "CDN" "network"]%float.

(** A row of [connections]: (start_x, start_y, end_x, end_y). *)
Definition Connection : Type := (float * float * float * float)%type.

(** The [connections] list (lines 78-92). *)
Definition connections : list Connection :=
  [(1.6, 0.8, 1.7, 5.5);
   (2.5, 5.9, 3.5, 6.2);
   (2.5, 5.7, 3.5, 5.2);
   (5, 6.2, 6, 5.9);
   (5, 5.2, 6, 5.7);
   (7.5, 5.9, 8, 6.2);
   (7.5, 5.7, 8, 4.9);
   (6.7, 5.5, 6.7, 3.8);
   (1.6, 0.8, 3.5, 2.2);
   (1.6, 0.8, 1.7, 2.5);
   (2.5, 2.8, 3.5, 2.4);
   (5, 2.2, 6, 3.2)]%float.

(** Lines 46-48: the dashed boundary of the cloud. *)
Definition cloud_rect : Rectangle :=
  mk_Rectangle (0.5, 1)%float 9 6 2 "lightblue" "lightcyan" 0.3 "--".

(** Lines 50-51. *)
Definition cloud_text : Text :=
  mk_Text 5 7.5 "Cloud Infrastructure" 16 "center" "baseline" "bold"
          "darkblue".

(** Lines 70-72: the rectangle of a component, given its face color. *)
Definition component_rect (c : Component) (facecolor : string) : Rectangle :=
  mk_Rectangle (c_x c, c_y c) (c_w c) (c_h c) 2 "black" facecolor 0.7
               "solid".

(** Lines 74-75: the label of a component, anchored at the middle of its
    rectangle. *)
Definition component_text (c : Component) : Text :=
  mk_Text (c_x c + c_w c / 2) (c_y c + c_h c / 2) (c_label c)
          9 "center" "center" "bold" "white".

(** Lines 69-75: one round of the loop over [components].  The rectangle
    checks its face color; the model is for colors that Matplotlib takes, as
    the hexadecimal ones of the script. *)
Definition draw_component (colors : dict string) (ax : Axes) (c : Component)
  : result Axes :=
  facecolor <- getitem colors (c_color_key c) ;;
  ok (add_text (add_patch ax (component_rect c facecolor))
               (component_text c)).

(** Lines 95-96: the arrow of a connection. *)
Definition connection_arrow (conn : Connection) : Arrow :=
  let '(start_x, start_y, end_x, end_y) := conn in
  mk_Arrow "" (end_x, end_y) (start_x, start_y) "->" 1.5 "darkgray".

(** Lines 105-106: one legend handle per key of [colors], for colors that
    Matplotlib takes. *)
Definition legend_elements (colors : dict string)
  : result (list (string * string)) :=
  mapM (fun key => c <- getitem colors key ;; ok (c, title key))
       (dict_keys colors).

(** The body of [create_matplotlib_visualization] over its three tables.
    The layout of line 109 measures the texts, and is modelled for labels and
    legend names like those of the script, without [$] in them. *)
Definition matplotlib_visualization_of (colors : dict string)
    (components : list Component) (connections : list Connection)
  : result MplFigure :=
  let ax := mk_Axes (0, 10)%float (0, 8)%float "equal" [] [] []
                    "" "" [] [] None in
  let ax := add_patch ax cloud_rect in
  let ax := add_text ax cloud_text in
  ax <- foldM (draw_component colors) components ax ;;
  let ax := fold_left (fun ax conn => annotate ax (connection_arrow conn))
                      connections ax in
  handles <- legend_elements colors ;;
  let ax := decorate ax "Simple Cloud Architecture Diagram"
                     "Components and Data Flow"
                     (mk_Legend handles "upper right" (1.15, 1)%float) in
  ok (mk_MplFigure (14, 10)%Z ax true).

Definition create_matplotlib_visualization : result MplFigure :=
  matplotlib_visualization_of colors components connections.

(** ** The file system seen by [main]

    A tree: a directory holds named entries and is writable or not; a file
    holds what was written to it.  Paths are lists of names from the root.
    Only what the three file operations of [main] depend on is kept: whether
    a path exists, whether it is a directory, and whether a new entry can be
    created in a directory. *)

Definition path : Type := list string.

(** [os.path.join(p, name)] for a name without a separator. *)
Definition path_join (p : path) (name : string) : path :=
  (p ++ [name])%list.

(** [os.path.dirname(p)] *)
Definition dirname (p : path) : path := removelast p.

(** The text of a path, as [print] and the [file://] URL show it. *)
Definition path_str (p : path) : string :=
  String.concat "" (map (fun name => "/" ++ name) p).

Inductive Content : Type :=
| Png (fig : MplFigure) (dpi : Z) (bbox_inches : string)
| TextFile (text : string).

(** A tree of directories and files, without links. *)
Inductive node : Type :=
| File (c : Content)
| Dir (writable : bool) (entries : dict node).

Definition os_error (c : exn_class) (errno : string) (p : path) : exn :=
  mk_exn c (errno ++ ": " ++ repr_str (path_str p)).

Definition permission_denied : path -> exn :=
  os_error PermissionError "[Errno 13] Permission denied".
Definition no_such_file : path -> exn :=
  os_error FileNotFoundError "[Errno 2] No such file or directory".
Definition not_a_directory : path -> exn :=
  os_error NotADirectoryError "[Errno 20] Not a directory".
Definition is_a_directory : path -> exn :=
  os_error IsADirectoryError "[Errno 21] Is a directory".
Definition file_exists : path -> exn :=
  os_error FileExistsError "[Errno 17] File exists".

(** What is at path [p] below [n]. *)
Fixpoint resolve (p : path) (n : node) : option node :=
  match p with
  | [] => Some n
  | name :: rest =>
      match n with
      | File _ => None
      | Dir _ entries =>
          match dict_get entries name with
          | Some child => resolve rest child
          | None => None
          end
      end
  end.

Definition isdir (p : path) (n : node) : bool :=
  match resolve p n with Some (Dir _ _) => true | _ => false end.

Definition isfile (p : path) (n : node) : bool :=
  match resolve p n with Some (File _) => true | _ => false end.

Definition read (p : path) (n : node) : option Content :=
  match resolve p n with Some (File c) => Some c | _ => None end.

(** [os.makedirs(p, exist_ok=True)]: every missing directory on the way is
    created, which needs a writable parent; a directory that is already
    there is left alone; a file in the way is an error.  [full] is the path
    the call was made with, for the message. *)
Fixpoint makedirs_at (full p : path) (n : node) : result node :=
  match p with
  | [] =>
      match n with
      | Dir _ _ => ok n
      | File _ => raise (file_exists full)
      end
  | name :: rest =>
      match n with
      | File _ => raise (not_a_directory full)
      | Dir w entries =>
          match dict_get entries name with
          | Some child =>
              child' <- makedirs_at full rest child ;;
              ok (Dir w (dict_set entries name child'))
          | None =>
              if w then
                child' <- makedirs_at full rest (Dir true []) ;;
                ok (Dir w (dict_set entries name child'))
              else raise (permission_denied full)
          end
      end
  end.

Definition makedirs (p : path) (n : node) : result node := makedirs_at p p n.

(** Opening [p] for writing and storing [c]: an existing file is replaced, a
    new one needs an existing, writable directory. *)
Fixpoint write_at (full p : path) (c : Content) (n : node) : result node :=
  match p with
  | [] =>
      match n with
      | File _ => ok (File c)
      | Dir _ _ => raise (is_a_directory full)
      end
  | name :: rest =>
      match n with
      | File _ => raise (not_a_directory full)
      | Dir w entries =>
          match dict_get entries name with
          | Some child =>
              child' <- write_at full rest c child ;;
              ok (Dir w (dict_set entries name child'))
          | None =>
              match rest with
              | [] =>
                  if w then ok (Dir w (dict_set entries name (File c)))
                  else raise (permission_denied full)
              | _ :: _ => raise (no_such_file full)
              end
          end
      end
  end.

Definition write_file (p : path) (c : Content) (n : node) : result node :=
  write_at p p c n.

(** ** [datetime.now().strftime('%Y-%m-%d %H:%M:%S')] *)

Record datetime : Set := mk_datetime {
  year : nat; month : nat; day : nat;
  hour : nat; minute : nat; second : nat
}.

Definition digit (d : nat) : ascii := ascii_of_nat (48 + d mod 10).

(** The last [width] decimal digits of [n], zero-padded. *)
Fixpoint zero_padded (width n : nat) (acc : string) : string :=
  match width with
  | O => acc
  | S width' => zero_padded width' (n / 10) (String (digit n) acc)
  end.

Definition strftime (t : datetime) : string :=
  zero_padded 4 (year t) "" ++ "-" ++ zero_padded 2 (month t) "" ++ "-"
  ++ zero_padded 2 (day t) "" ++ " " ++ zero_padded 2 (hour t) "" ++ ":"
  ++ zero_padded 2 (minute t) "" ++ ":" ++ zero_padded 2 (second t) "".

(** ** The HTML page (lines 247-304) *)

(** Lines 247-281 of the f-string, up to the timestamp. *)
Definition html_before_timestamp : string :=
  String.concat newline
    ["";
     "        <!DOCTYPE html>";
     "        <html>";
     "        <head>";
     "            <title>Cloud Architecture Visualization</title>";
     "            <style>";
     "                body {";
     "                    font-family: Arial, sans-serif;";
     "                    margin: 20px;";
     "                    background-color: #f5f5f5;";
     "                }";
     "                .header {";
     "                    text-align: center;";
     "                    color: #333;";
     "                    margin-bottom: 20px;";
     "                }";
     "                .info {";
     "                    background-color: white;";
     "                    padding: 15px;";
     "                    border-radius: 5px;";
     "                    margin-bottom: 20px;";
     "                    box-shadow: 0 2px 5px rgba(0,0,0,0.1);";
     "                }";
     "                .chart-container {";
     "                    background-color: white;";
     "                    border-radius: 5px;";
     "                    box-shadow: 0 2px 5px rgba(0,0,0,0.1);";
     "                    padding: 20px;";
     "                }";
     "            </style>";
     "        </head>";
     "        <body>";
     "            <div class=" ++ dquote ++ "header" ++ dquote ++ ">";
     "                <h1>☁️ Cloud Architecture Visualization</h1>";
     "                <p>Generated on "].

(** Lines 281-300, between the timestamp and the plot. *)
Definition html_before_plot : string :=
  String.concat newline
    ["</p>";
     "            </div>";
     "            ";
     "            <div class=" ++ dquote ++ "info" ++ dquote ++ ">";
     "                <h3>📋 Architecture Components:</h3>";
     "                <ul>";
     "                    <li><strong>Users:</strong> External clients accessing the system</li>";
     "                    <li><strong>CDN:</strong> Content Delivery Network for static assets</li>";
     "                    <li><strong>Load Balancer:</strong> Distributes incoming requests</li>";
     "                    <li><strong>Web Servers:</strong> Handle HTTP requests</li>";
     "                    <li><strong>App Server:</strong> Business logic processing</li>";
     "                    <li><strong>Database:</strong> Persistent data storage</li>";
     "                    <li><strong>Cache:</strong> Redis for fast data retrieval</li>";
     "                    <li><strong>Storage:</strong> File storage system</li>";
     "                    <li><strong>API Gateway:</strong> API management and routing</li>";
     "                </ul>";
     "            </div>";
     "            ";
     "            <div class=" ++ dquote ++ "chart-container" ++ dquote ++ ">";
     "                "].

(** Lines 300-304, after the plot. *)
Definition html_after_plot : string :=
  String.concat newline
    ["";
     "            </div>";
     "        </body>";
     "        </html>";
     "        "].

(** The f-string [html_content] with its two holes filled. *)
Definition html_content (timestamp plot_div : string) : string :=
  html_before_timestamp ++ timestamp ++ html_before_plot ++ plot_div
  ++ html_after_plot.

(** ** The world around [main] *)

(** The library calls of [main] that reach outside the process. *)
Inductive Step : Set :=
| StepSavefig | StepMakedirs | StepPlot | StepWrite | StepBrowser.

Definition Step_eqb (a b : Step) : bool :=
  match a, b with
  | StepSavefig, StepSavefig | StepMakedirs, StepMakedirs
  | StepPlot, StepPlot | StepWrite, StepWrite
  | StepBrowser, StepBrowser => true
  | _, _ => false
  end.

(** What the outside answers during one run.  [fault st = Some e] makes the
    call [st] raise [e] whatever the file system says (a missing optional
    package, a full disk, an interrupt); with [None] the call behaves as the
    file system model says.  [plot] is the markup that
    [pyo.plot(fig, output_type='div', include_plotlyjs=True)] returns in
    this run; [browser_opens] is what [webbrowser.open] returns. *)
Record Env : Type := mk_Env {
  tempdir : path;
  cwd : path;
  now : datetime;
  plot : Figure -> string;
  browser_opens : bool;
  fault : Step -> option exn
}.

(** One entry per call made, in order, whether or not it raised. *)
Inductive Call : Type :=
| CallSavefig (p : path)
| CallMakedirs (p : path)
| CallPlot
| CallWrite (p : path)
| CallBrowser (url : string).

Record State : Type := mk_State {
  fs : node;
  stdout : list string;
  calls : list Call
}.

(** A statement of [main]: it may raise, and it leaves a state either way. *)
Definition prog (A : Type) : Type := State -> result A * State.


Definition lift {A} (r : result A) : prog A := fun s => (r, s).

Definition andthen {A B} (m : prog A) (k : A -> prog B) : prog B :=
  fun s =>
    match m s with
    | (inl e, s') => (inl e, s')
    | (inr a, s') => k a s'
    end.

Notation "x <~ m ;; k" := (andthen m (fun x => k))
  (at level 61, m at next level, right associativity).
Notation "m ;;; k" := (andthen m (fun _ => k))
  (at level 61, right associativity).

(** [print] on a standard output that takes the line; [print_on] below is
    [print] on a stream that may refuse it. *)
Definition print (line : string) : prog unit :=
  fun s => (ok tt, mk_State (fs s) (stdout s ++ [line])%list (calls s)).

Definition log (c : Call) : prog unit :=
  fun s => (ok tt, mk_State (fs s) (stdout s) (calls s ++ [c])%list).

(** A call that changes the file system: the injected fault comes first.  A
    call that fails is taken to leave the tree as it was. *)
Definition fs_call (env : Env) (st : Step) (op : node -> result node)
  : prog unit :=
  fun s =>
    match fault env st with
    | Some e => (inl e, s)
    | None =>
        match op (fs s) with
        | inl e => (inl e, s)
        | inr fs' => (ok tt, mk_State fs' (stdout s) (calls s))
        end
    end.

(** [fig.savefig(p, dpi=..., bbox_inches=...)] *)
Definition savefig (env : Env) (fig : MplFigure) (p : path) (dpi : Z)
    (bbox_inches : string) : prog unit :=
  log (CallSavefig p) ;;;
  fs_call env StepSavefig (write_file p (Png fig dpi bbox_inches)).

(** [os.makedirs(p, exist_ok=True)] *)
Definition os_makedirs (env : Env) (p : path) : prog unit :=
  log (CallMakedirs p) ;;;
  fs_call env StepMakedirs (makedirs p).

(** [pyo.plot(fig, output_type='div', include_plotlyjs=True)] *)
Definition pyo_plot (env : Env) (fig : Figure) : prog string :=
  log CallPlot ;;;
  lift (match fault env StepPlot with
        | Some e => raise e
        | None => ok (plot env fig)
        end).

(** [with open(p, 'w') as f: f.write(text)] *)
Definition write_text (env : Env) (p : path) (text : string) : prog unit :=
  log (CallWrite p) ;;;
  fs_call env StepWrite (write_file p (TextFile text)).

(** [webbrowser.open(url)] *)
Definition webbrowser_open (env : Env) (url : string) : prog bool :=
  log (CallBrowser url) ;;;
  lift (match fault env StepBrowser with
        | Some e => raise e
        | None => ok (browser_opens env)
        end).

(** ** [main] *)

Definition static_file (env : Env) : path :=
  path_join (tempdir env) "cloud_architecture_static.png".

Definition html_file (env : Env) : path :=
  path_join (path_join (cwd env) "docs") "index.html".

(** Lines 227-318: the body of the [try]. *)
Definition main_try (env : Env) : prog unit :=
  print "📊 Generating static diagram..." ;;;
  fig_static <~ lift create_matplotlib_visualization ;;
  savefig env fig_static (static_file env) 300 "tight" ;;;
  print ("💾 Static diagram saved to: " ++ path_str (static_file env)) ;;;
  print "🌐 Generating interactive diagram..." ;;;
  fig_interactive <~ lift create_interactive_visualization ;;
  os_makedirs env (dirname (html_file env)) ;;;
  let timestamp := strftime (now env) in
  plot_div <~ pyo_plot env fig_interactive ;;
  write_text env (html_file env) (html_content timestamp plot_div) ;;;
  print ("💾 Interactive diagram saved to: " ++ path_str (html_file env)) ;;;
  print "🌐 Opening visualization in browser..." ;;;
  _ <~ webbrowser_open env ("file://" ++ path_str (html_file env)) ;;
  print "✅ Visualization created successfully!" ;;;
  print "📁 Files created:" ;;;
  print ("   - Static PNG: " ++ path_str (static_file env)) ;;;
  print ("   - Interactive HTML: " ++ path_str (html_file env)).

(** Lines 320-323: the handler of [ImportError]. *)
Definition report_import_error (e : exn) : list string :=
  ["❌ Missing required library: " ++ exn_str e;
   "📦 Please install required packages:";
   "   pip install matplotlib networkx plotly"].

(** Lines 324-325: the handler of [Exception]. *)
Definition report_exception (e : exn) : list string :=
  ["❌ Error creating visualization: " ++ exn_str e].

(** How a call of [main] ends: it returns, or an exception leaves it. *)
Inductive Outcome : Set :=
| Returned
| Escaped (e : exn).

Definition print_all (lines : list string) (s : State) : State :=
  mk_State (fs s) (stdout s ++ lines)%list (calls s).

(** The [try] statement: the first [except] clause whose class the
    exception is an instance of handles it; with none, it propagates. *)
Definition handle (r : result unit * State) : Outcome * State :=
  match r with
  | (inr _, s) => (Returned, s)
  | (inl e, s) =>
      if isinstance e ImportError then
        (Returned, print_all (report_import_error e) s)
      else if isinstance e Exception then
        (Returned, print_all (report_exception e) s)
      else (Escaped e, s)
  end.

(** Line 224, printed before the [try]. *)
Definition banner : string :=
  "🚀 Creating Cloud Architecture Visualization...".

Definition main (env : Env) (s : State) : Outcome * State :=
  handle (main_try env (print_all [banner] s)).

(** ** [main] on a standard output that can refuse a line

    [print] above takes a standard output that accepts every line.  Python's
    [print] raises when the stream is closed or cannot encode the text, and
    in the script the banner of line 224 is printed before the [try] and the
    two handlers print as well.  The definitions below follow the same lines
    with a [print] that asks the stream first; [script] adds the imports of
    lines 17-25, which run before [main] is called (lines 327-328). *)











(** ** The interactive builder as the specification words it

    Section 4.2 of the specification asks that an edge naming an identifier
    absent from the node table be rejected by an explicit check with a
    dedicated error.  This definition follows those words, for comparison
    with [interactive_visualization_of], which follows the script. *)
Definition edge_is_known (nodes : dict (dict pyval)) (e : string * string)
  : bool :=
  dict_mem nodes (fst e) && dict_mem nodes (snd e).

Definition checked_interactive_visualization (nodes : dict (dict pyval))
    (edges : list (string * string)) : result Figure :=
  match find (fun e => negb (edge_is_known nodes e)) edges with
  | Some e =>
      raise (mk_exn InvalidEdgeError
               ("edge (" ++ fst e ++ ", " ++ snd e ++ ") names an unknown node"))
  | None => interactive_visualization_of nodes edges
  end.

(** ** Notions used to state the properties *)

(** The two dictionaries of a graph have the same keys in the same order. *)
Definition in_step (G : DiGraph) : Prop :=
  dict_keys (_node G) = dict_keys (_succ G).

(** The identifiers an edge list names, in the order [add_edges_from] meets
    them. *)
Definition endpoints (edges : list (string * string)) : list string :=
  flat_map (fun e => [fst e; snd e]) edges.

(** The first identifier named by an edge that is not a key of the table. *)
Definition first_unknown (nodes : dict (dict pyval))
    (edges : list (string * string)) : option string :=
  find (fun n => negb (dict_mem nodes n)) (endpoints edges).

(** Whether a result is an exception of class [c] (or of a subclass). *)
Definition raises (A : Type) (r : result A) (c : exn_class) : bool :=
  match r with
  | inl e => isinstance e c
  | inr _ => false
  end.
Arguments raises {A} r c.

(** A list without repetition, for an equality test that answers [false]
    only on different values. *)
Fixpoint nodupb {A} (eqb : A -> A -> bool) (l : list A) : bool :=
  match l with
  | [] => true
  | a :: l' => negb (existsb (eqb a) l') && nodupb eqb l'
  end.

Definition edge_eqb (e e' : string * string) : bool :=
  String.eqb (fst e) (fst e') && String.eqb (snd e) (snd e').

(** Equality of the numbers and strings of a trace; tuples, which no trace
    holds, are not told apart. *)
Definition pyval_eqb (a b : pyval) : bool :=
  match a, b with
  | VNone, VNone => true
  | VInt x, VInt y => Z.eqb x y
  | VStr s, VStr t => String.eqb s t
  | VTuple _, VTuple _ => true
  | _, _ => false
  end.

(** A line segment of the edge trace: x0, y0, x1, y1. *)
Definition Segment : Type := (pyval * pyval * pyval * pyval)%type.

Definition segment_eqb (a b : Segment) : bool :=
  let '(ax0, ay0, ax1, ay1) := a in
  let '(bx0, by0, bx1, by1) := b in
  pyval_eqb ax0 bx0 && pyval_eqb ay0 by0 && pyval_eqb ax1 bx1
  && pyval_eqb ay1 by1.

(** The segments drawn by a trace whose [x] and [y] are runs of two
    coordinates and a [None]. *)
Fixpoint rendered_segments (xs ys : list pyval) : list Segment :=
  match xs, ys with
  | x0 :: x1 :: VNone :: xs', y0 :: y1 :: VNone :: ys' =>
      (x0, y0, x1, y1) :: rendered_segments xs' ys'
  | _, _ => []
  end.

(** Entry [axis] of the ['pos'] of a node of the table. *)
Definition coordinate (nodes : dict (dict pyval)) (axis : nat) (n : string)
  : option pyval :=
  match dict_get nodes n with
  | Some a =>
      match dict_get a "pos" with
      | Some (VTuple items) => nth_error items axis
      | _ => None
      end
  | None => None
  end.

(** The segment between the positions the table gives the ends of an edge. *)
Definition segment_of (nodes : dict (dict pyval)) (e : string * string)
  : option Segment :=
  match coordinate nodes 0 (fst e), coordinate nodes 1 (fst e),
        coordinate nodes 0 (snd e), coordinate nodes 1 (snd e) with
  | Some x0, Some y0, Some x1, Some y1 => Some (x0, y0, x1, y1)
  | _, _, _, _ => None
  end.

(** The hover label of a node (line 184). *)
Definition hover_label (n : string) : string := title (replace "_" " " n).

(** The five values of the node trace that belong to one entry of the node
    table: x, y, marker color, marker size, hover label. *)
Definition node_row (nodes : dict (dict pyval)) (n : string)
  : option (pyval * pyval * pyval * pyval * string) :=
  match dict_get nodes n with
  | Some a =>
      match coordinate nodes 0 n, coordinate nodes 1 n,
            dict_get a "color", dict_get a "size" with
      | Some x, Some y, Some c, Some sz => Some (x, y, c, sz, hover_label n)
      | _, _, _, _ => None
      end
  | None => None
  end.

(** The same five values read off a trace at index [i]. *)
Definition trace_row (tr : Scatter) (i : nat)
  : option (pyval * pyval * pyval * pyval * string) :=
  match sc_marker tr with
  | Some m =>
      match nth_error (sc_x tr) i, nth_error (sc_y tr) i,
            nth_error (marker_color m) i, nth_error (marker_size m) i,
            nth_error (sc_text tr) i with
      | Some x, Some y, Some c, Some sz, Some t => Some (x, y, c, sz, t)
      | _, _, _, _, _ => None
      end
  | None => None
  end.

(** What the picture holds for one row of [components]: a rectangle at the
    row's position and of its size, filled with the color of its category
    and bordered in black, and the row's label centred on the middle of the
    rectangle. *)
Definition drawn_as (c : Component) (rt : Rectangle * Text) : Prop :=
  let (r, t) := rt in
  rect_xy r = (c_x c, c_y c) /\ rect_width r = c_w c /\
  rect_height r = c_h c /\
  getitem colors (c_color_key c) = ok (rect_facecolor r) /\
  rect_edgecolor r = "black" /\ rect_linewidth r = 2%Z /\
  text_s t = c_label c /\
  text_ha t = "center" /\ text_va t = "center" /\
  text_x t = (c_x c + c_w c / 2)%float /\
  text_y t = (c_y c + c_h c / 2)%float.

(** The arrow of one row of [connections]: it starts and ends at the two
    coordinate pairs of the row. *)
Definition drawn_from (conn : Connection) (a : Arrow) : Prop :=
  let '(start_x, start_y, end_x, end_y) := conn in
  arrow_xytext a = (start_x, start_y) /\ arrow_xy a = (end_x, end_y) /\
  arrow_style a = "->".

(** What a path leads to: a directory ([Some true]), a file ([Some false])
    or nothing. *)
Definition kind (p : path) (n : node) : option bool :=
  match resolve p n with
  | Some (Dir _ _) => Some true
  | Some (File _) => Some false
  | None => None
  end.



(** The same world with another answer of the browser launch. *)
Definition with_browser (env : Env) (opens : bool) (raised : option exn)
  : Env :=
  mk_Env (tempdir env) (cwd env) (now env) (plot env) opens
         (fun st => if Step_eqb st StepBrowser then raised else fault env st).

(** Lines 229-233 on their own: the static figure is built and exported. *)
Definition raster_export (env : Env) : prog unit :=
  fig_static <~ lift create_matplotlib_visualization ;;
  savefig env fig_static (static_file env) 300 "tight".

(** [s] ends with [suffix]. *)
Definition ends_with (suffix s : string) : bool :=
  let n := String.length s - String.length suffix in
  String.eqb (substring n (String.length suffix) s) suffix.

(** ** Sample worlds *)

(** A machine on which every call succeeds and the browser opens. *)
Definition quiet_env : Env :=
  mk_Env ["tmp"] ["home"; "u"] (mk_datetime 2024 3 7 9 5 0)
         (fun _ => "<div>plot</div>") true (fun _ => None).

(** The same machine half a minute later, with another markup for the
    same figure. *)
Definition later_env : Env :=
  mk_Env ["tmp"] ["home"; "u"] (mk_datetime 2024 3 7 9 5 30)
         (fun _ => "<div id=2>plot</div>") true (fun _ => None).

(** A machine on which serialising the plot needs a package that is not
    installed. *)
Definition env_without_numpy : Env :=
  mk_Env ["tmp"] ["home"; "u"] (mk_datetime 2024 3 7 9 5 0)
         (fun _ => "<div>plot</div>") true
         (fun st => match st with
                    | StepPlot =>
                        Some (mk_exn ModuleNotFoundError
                                     "No module named 'numpy'")
                    | _ => None
                    end).

Definition no_browser : exn :=
  mk_exn WebbrowserError "could not locate runnable browser".

(** A fresh working directory [/home/u] and a writable [/tmp]. *)
Definition fresh_state : State :=
  mk_State (Dir true [("tmp", Dir true []);
                      ("home", Dir true [("u", Dir true [])])])
           [] [].

(** The same with a [/tmp] in which nothing can be created. *)
Definition unwritable_tmp : State :=
  mk_State (Dir true [("tmp", Dir false []);
                      ("home", Dir true [("u", Dir true [])])])
           [] [].

(** The state a first complete run leaves behind on [fresh_state]. *)
Definition after_first_run : State :=
  snd (main_try quiet_env (print_all [banner] fresh_state)).

(** ** Notions used to state the further properties *)

(** The successors recorded for a node. *)
Definition succs (G : DiGraph) (u : string) : list string :=
  match dict_get (_succ G) u with Some l => l | None => [] end.

(** The shape every graph built by the script has: nodes and successor
    dictionaries in step, no key twice, no successor twice. *)
Definition well_formed (G : DiGraph) : Prop :=
  in_step G /\ NoDup (dict_keys (_succ G)) /\
  Forall (fun entry => NoDup (snd entry)) (_succ G).

(** Lines 133-134: the loop over the node table. *)
Definition add_nodes (G : DiGraph) (nodes : dict (dict pyval)) : DiGraph :=
  fold_left (fun G na => add_node G (fst na) (snd na)) nodes G.

(** The elements of [l] not in [seen], each at its first appearance. *)
Fixpoint first_seen (seen l : list string) : list string :=
  match l with
  | [] => []
  | x :: l' =>
      if list_mem x seen then first_seen seen l'
      else x :: first_seen (seen ++ [x]) l'
  end.

(** An attribute dictionary as the script writes them: no key twice, a
    position that is a pair, a color and a size. *)
Definition complete_attrs (a : dict pyval) : Prop :=
  NoDup (dict_keys a) /\
  (exists x y, dict_get a "pos" = Some (VTuple [x; y])) /\
  dict_mem a "color" = true /\ dict_mem a "size" = true.

(** The value found, or [None]. *)
Definition or_none (o : option pyval) : pyval :=
  match o with Some v => v | None => VNone end.

(** Attribute [name] of node [n] of the table. *)
Definition attribute (nodes : dict (dict pyval)) (name n : string)
  : option pyval :=
  match dict_get nodes n with
  | Some a => dict_get a name
  | None => None
  end.

(** Attribute [name] of node [n], [None] when there is none. *)
Definition node_value (nodes : dict (dict pyval)) (name n : string) : pyval :=
  or_none (attribute nodes name n).

(** Coordinate [axis] of node [n], [None] when there is none. *)
Definition coord (nodes : dict (dict pyval)) (axis : nat) (n : string)
  : pyval :=
  or_none (coordinate nodes axis n).

(** A table of two nodes and an edge list that names one pair twice. *)
Definition two_nodes : dict (dict pyval) :=
  [("a", node_attrs 0 0 "#000000" 10); ("b", node_attrs 3 4 "#FFFFFF" 20)].

(** The color a dictionary gives a key. *)
Definition color_of (cs : dict string) (key : string) : string :=
  match dict_get cs key with Some c => c | None => "" end.

(** The first row whose color key the dictionary does not have. *)
Definition first_missing (cs : dict string) (comps : list Component)
  : option Component :=
  find (fun c => negb (dict_mem cs (c_color_key c))) comps.

(** The line that announces a complete run (line 315). *)
Definition success_line : string := "✅ Visualization created successfully!".

(** The characters of a string. *)
Fixpoint chars (s : string) : list ascii :=
  match s with
  | EmptyString => []
  | String c s' => c :: chars s'
  end.

(** The text of a color as the script writes them: [#] and six hexadecimal
    digits. *)
Definition is_hex_digit (c : ascii) : bool :=
  let n := nat_of_ascii c in
  ((48 <=? n) && (n <=? 57) || (65 <=? n) && (n <=? 70)
   || (97 <=? n) && (n <=? 102))%nat.

Definition hex_color (s : string) : bool :=
  match s with
  | String c digits =>
      Ascii.eqb c "#" && (String.length digits =? 6)%nat
      && forallb is_hex_digit (chars digits)
  | EmptyString => false
  end.

(** A string of ASCII characters, on which [title] is [str.title()]. *)
Definition ascii_only (s : string) : bool :=
  forallb (fun c => (nat_of_ascii c <? 128)%nat) (chars s).

(** A string of printable ASCII characters without quote or backslash,
    which [repr] shows between single quotes as it is. *)
Definition plain_text (s : string) : bool :=
  forallb (fun c => let n := nat_of_ascii c in
                    ((32 <=? n) && (n <? 127) && negb (n =? 39)
                     && negb (n =? 92))%nat)
          (chars s).

(** Attribute names that [G.add_node(node, **attrs)] can take: the names of
    its own two parameters would clash with them. *)
Definition plain_keys (a : dict pyval) : bool :=
  negb (dict_mem a "node_for_adding") && negb (dict_mem a "self").

(** An integer that fits in 64 bits, as the arrays of the figure hold
    them. *)
Definition int64 (z : Z) : bool :=
  ((- 2 ^ 63 <=? z) && (z <? 2 ^ 63))%Z.

(** An entry of the node table as the script writes them: a position of two
    integers, a hexadecimal color and a size that is not negative, which are
    values the Plotly markers take. *)
Definition script_entry (a : dict pyval) : Prop :=
  exists x y color size,
    a = node_attrs x y color size /\ hex_color color = true /\
    int64 x = true /\ int64 y = true /\
    (0 <=? size)%Z = true /\ int64 size = true.

(** A row of [components] with finite numbers. *)
Definition finite_row (c : Component) : bool :=
  is_finite (c_x c) && is_finite (c_y c) && is_finite (c_w c)
  && is_finite (c_h c).

(** An attribute dictionary that may lack its position: no key twice, an
    integer pair as position when there is one, a color and a size, and
    attribute names that [add_node] takes. *)
Definition attrs_but_pos (a : dict pyval) : Prop :=
  NoDup (dict_keys a) /\
  (forall v, dict_get a "pos" = Some v ->
             exists x y, v = VTuple [VInt x; VInt y] /\
                         int64 x = true /\ int64 y = true) /\
  dict_mem a "color" = true /\ dict_mem a "size" = true /\
  plain_keys a = true.

(** A table whose second entry has no position. *)
Definition no_pos_for_b : dict (dict pyval) :=
  [("a", node_attrs 0 0 "#000000" 10);
   ("b", [("color", VStr "#FFFFFF"); ("size", VInt 20)])].


(** * Properties *)

(** ** Dictionaries *)

Section DictFacts.
Context {V : Type}.
Implicit Types (d : dict V) (k : string) (v : V).

Lemma dict_get_None_not_In d k :
  dict_get d k = None <-> ~ In k (dict_keys d).
Proof.
  induction d as [|[k' v'] d IH]; simpl.
  - tauto.
  - destruct (String.eqb_spec k' k) as [->|Hne].
    + split; [discriminate | intros H; exfalso; apply H; now left].
    + rewrite IH. split.
      * intros H [Heq|Hin]; [now apply Hne | now apply H].
      * intros H Hin. apply H. now right.
Qed.

Lemma dict_mem_false_not_In d k :
  dict_mem d k = false <-> ~ In k (dict_keys d).
Proof.
  unfold dict_mem. rewrite <- dict_get_None_not_In.
  destruct (dict_get d k); split; congruence.
Qed.

Lemma dict_mem_true_In d k :
  dict_mem d k = true <-> In k (dict_keys d).
Proof.
  destruct (dict_mem d k) eqn:E.
  - split; [intros _ | reflexivity].
    destruct (in_dec string_dec k (dict_keys d)) as [Hin|Hnin]; [assumption|].
    apply dict_mem_false_not_In in Hnin. congruence.
  - apply dict_mem_false_not_In in E. split; [discriminate | tauto].
Qed.

(** Assigning to a key: the keys grow by the key when it is new. *)
Lemma dict_keys_set d k v :
  dict_keys (dict_set d k v) =
  if dict_mem d k then dict_keys d else (dict_keys d ++ [k])%list.
Proof.
  unfold dict_mem.
  induction d as [|[k' v'] d IH]; simpl; [reflexivity|].
  destruct (String.eqb k' k) eqn:E; simpl; [reflexivity|].
  rewrite IH. now destruct (dict_get d k).
Qed.

Lemma dict_get_set_same d k v : dict_get (dict_set d k v) k = Some v.
Proof.
  induction d as [|[k' v'] d IH]; simpl.
  - now rewrite String.eqb_refl.
  - destruct (String.eqb k' k) eqn:E; simpl; now rewrite E.
Qed.

Lemma dict_get_set_other d k k' v :
  k <> k' -> dict_get (dict_set d k v) k' = dict_get d k'.
Proof.
  intros Hne. induction d as [|[k0 v0] d IH]; simpl.
  - destruct (String.eqb_spec k k'); [contradiction | reflexivity].
  - destruct (String.eqb_spec k0 k) as [->|Hk]; simpl.
    + destruct (String.eqb_spec k k'); [contradiction | reflexivity].
    + now rewrite IH.
Qed.

(** Writing back the value a key already has changes nothing. *)
Lemma dict_set_same d k v : dict_get d k = Some v -> dict_set d k v = d.
Proof.
  induction d as [|[k' v'] d IH]; simpl; [discriminate|].
  destruct (String.eqb k' k) eqn:E.
  - now intros [= ->].
  - intros H. now rewrite IH.
Qed.

Lemma getitem_missing d k :
  dict_mem d k = false -> getitem d k = raise (mk_exn KeyError (repr_str k)).
Proof.
  unfold dict_mem, getitem. now destruct (dict_get d k).
Qed.
End DictFacts.

(** ** Comprehensions and loops that can raise *)

Lemma mapM_app_raise {A B} (f : A -> result B) l1 k l2 bs e :
  mapM f l1 = ok bs -> f k = raise e ->
  mapM f (l1 ++ k :: l2) = raise e.
Proof.
  revert bs. induction l1 as [|a l1 IH]; simpl; intros bs Hl Hk.
  - now rewrite Hk.
  - destruct (f a) as [e'|b]; simpl in *; [discriminate|].
    destruct (mapM f l1) as [e'|bs']; simpl in *; [discriminate|].
    now rewrite (IH bs' eq_refl Hk).
Qed.

(** ** The graph *)

Lemma touch_node_in_step G n : in_step G -> in_step (touch_node G n).
Proof.
  unfold in_step, touch_node. intros H.
  destruct (dict_mem (_succ G) n) eqn:E; [assumption|]. simpl.
  rewrite !dict_keys_set, E.
  assert (E' : dict_mem (_node G) n = false).
  { apply dict_mem_false_not_In. rewrite H.
    now apply dict_mem_false_not_In. }
  now rewrite E', H.
Qed.

(** A node that is touched is appended when new and otherwise changes
    nothing in the order of the nodes. *)
Lemma G_nodes_touch G n :
  in_step G ->
  G_nodes (touch_node G n) =
  if dict_mem (_node G) n then G_nodes G else (G_nodes G ++ [n])%list.
Proof.
  unfold in_step, touch_node, G_nodes. intros H.
  assert (E : dict_mem (_succ G) n = dict_mem (_node G) n).
  { destruct (dict_mem (_node G) n) eqn:E1.
    - apply dict_mem_true_In. rewrite <- H. now apply dict_mem_true_In.
    - apply dict_mem_false_not_In. rewrite <- H.
      now apply dict_mem_false_not_In. }
  rewrite E. destruct (dict_mem (_node G) n) eqn:E1; [reflexivity|].
  simpl. now rewrite dict_keys_set, E1.
Qed.

Lemma add_edge_in_step G e : in_step G -> in_step (add_edge G e).
Proof.
  destruct e as [u v]. intros H.
  pose proof (touch_node_in_step _ v (touch_node_in_step _ u H)) as H2.
  unfold add_edge, in_step in *. simpl.
  rewrite dict_keys_set.
  destruct (dict_mem (_succ (touch_node (touch_node G u) v)) u) eqn:E;
    [assumption|].
  exfalso. apply dict_mem_false_not_In in E. apply E. rewrite <- H2.
  apply dict_mem_true_In.
  pose proof (G_nodes_touch _ v (touch_node_in_step _ u H)) as Hv.
  pose proof (G_nodes_touch _ u H) as Hu.
  unfold G_nodes in *. apply dict_mem_true_In. rewrite Hv.
  assert (Hin : In u (dict_keys (_node (touch_node G u)))).
  { rewrite Hu. destruct (dict_mem (_node G) u) eqn:E1.
    - now apply dict_mem_true_In.
    - apply in_or_app. right. now left. }
  destruct (dict_mem (_node (touch_node G u)) v);
    [assumption | apply in_or_app; now left].
Qed.

Lemma dict_mem_same_keys {V W} (d : dict V) (d' : dict W) k :
  dict_keys d = dict_keys d' -> dict_mem d k = dict_mem d' k.
Proof.
  intros H. destruct (dict_mem d' k) eqn:E.
  - apply dict_mem_true_In. rewrite H. now apply dict_mem_true_In.
  - apply dict_mem_false_not_In. rewrite H. now apply dict_mem_false_not_In.
Qed.

(** One edge appends to the nodes those of its two ends that are new, the
    source first. *)
Lemma G_nodes_add_edge G u v :
  in_step G ->
  G_nodes (add_edge G (u, v)) =
  (G_nodes G
   ++ (if dict_mem (_node G) u then [] else [u])
   ++ (if dict_mem (_node G) v || String.eqb u v then [] else [v]))%list.
Proof.
  intros H.
  change (G_nodes (add_edge G (u, v)))
    with (G_nodes (touch_node (touch_node G u) v)).
  rewrite (G_nodes_touch _ v (touch_node_in_step _ u H)).
  assert (Hm : dict_mem (_node (touch_node G u)) v
               = dict_mem (_node G) v || String.eqb u v).
  { pose proof (G_nodes_touch _ u H) as Hu. unfold G_nodes in Hu.
    destruct (dict_mem (_node G) v || String.eqb u v) eqn:E.
    - apply dict_mem_true_In. rewrite Hu.
      apply orb_true_iff in E as [E|E].
      + apply dict_mem_true_In in E.
        destruct (dict_mem (_node G) u); [|apply in_or_app; left]; exact E.
      + apply String.eqb_eq in E. subst v.
        destruct (dict_mem (_node G) u) eqn:E1.
        * now apply dict_mem_true_In.
        * apply in_or_app. right. now left.
    - apply orb_false_iff in E as [E1 E2].
      apply dict_mem_false_not_In. rewrite Hu.
      apply dict_mem_false_not_In in E1. apply String.eqb_neq in E2.
      destruct (dict_mem (_node G) u); [exact E1|].
      intros Hin. apply in_app_or in Hin as [Hin|[Hin|[]]];
        [now apply E1 | now apply E2]. }
  rewrite Hm, (G_nodes_touch _ u H).
  destruct (dict_mem (_node G) u), (dict_mem (_node G) v || String.eqb u v);
    simpl; rewrite ?app_nil_r, <- ?app_assoc; reflexivity.
Qed.

(** Adding edges never removes or reorders the nodes already there. *)
Lemma G_nodes_add_edges_from G es :
  in_step G ->
  exists ext, G_nodes (add_edges_from G es) = (G_nodes G ++ ext)%list.
Proof.
  unfold add_edges_from. revert G.
  induction es as [|[u v] es IH]; intros G H; cbn [fold_left].
  - exists []. now rewrite app_nil_r.
  - destruct (IH _ (add_edge_in_step _ (u, v) H)) as [ext Hext].
    rewrite Hext, (G_nodes_add_edge _ _ _ H).
    eexists. rewrite <- !app_assoc. reflexivity.
Qed.

(** With an edge list that names an unknown identifier, the first such
    identifier is the first node after those of the table. *)
Lemma G_nodes_first_unknown (nodes : dict (dict pyval)) es k :
  first_unknown nodes es = Some k ->
  forall G, in_step G -> G_nodes G = dict_keys nodes ->
  exists ext,
    G_nodes (add_edges_from G es) = (dict_keys nodes ++ k :: ext)%list.
Proof.
  unfold first_unknown, endpoints, add_edges_from.
  induction es as [|[u v] es IH];
    cbn [flat_map fold_left find fst snd app]; [discriminate|].
  intros Hk G H HG.
  assert (Hmem : forall n, dict_mem (_node G) n = dict_mem nodes n)
    by (intros n; now apply dict_mem_same_keys).
  pose proof (G_nodes_add_edge G u v H) as Hstep.
  rewrite !Hmem, HG in Hstep.
  destruct (G_nodes_add_edges_from (add_edge G (u, v)) es
              (add_edge_in_step _ (u, v) H)) as [ext Hext].
  unfold add_edges_from in Hext.
  destruct (dict_mem nodes u) eqn:Eu; cbn [negb] in Hk.
  - destruct (dict_mem nodes v) eqn:Ev; cbn [negb orb app] in Hk, Hstep.
    + rewrite app_nil_r in Hstep.
      exact (IH Hk _ (add_edge_in_step _ (u, v) H) Hstep).
    + injection Hk as <-.
      destruct (String.eqb_spec u v) as [->|_]; [congruence|].
      cbn [app] in Hstep. rewrite Hext, Hstep, <- app_assoc. now exists ext.
  - injection Hk as <-. cbn [app] in Hstep.
    rewrite Hext, Hstep, <- !app_assoc. cbn [app]. eexists. reflexivity.
Qed.

(** ** Lists without repetition *)

Lemma existsb_false_not_In {A} (eqb : A -> A -> bool) a l :
  (forall x y, eqb x y = false -> x <> y) ->
  existsb (eqb a) l = false -> ~ In a l.
Proof.
  intros Hsound. induction l as [|b l IH]; simpl; [tauto|].
  intros H. apply orb_false_iff in H as [Hab Hl].
  intros [->|Hin]; [now apply (Hsound _ _ Hab) | now apply IH].
Qed.

Lemma nodupb_NoDup {A} (eqb : A -> A -> bool) l :
  (forall x y, eqb x y = false -> x <> y) ->
  nodupb eqb l = true -> NoDup l.
Proof.
  intros Hsound. induction l as [|a l IH]; simpl; [constructor|].
  intros H. apply andb_true_iff in H as [Ha Hl]. constructor.
  - apply (existsb_false_not_In eqb); [assumption|].
    now apply negb_true_iff.
  - now apply IH.
Qed.

Lemma string_eqb_sound (x y : string) : String.eqb x y = false -> x <> y.
Proof. now intros H%String.eqb_neq. Qed.

Lemma edge_eqb_sound e e' : edge_eqb e e' = false -> e <> e'.
Proof.
  unfold edge_eqb. intros H ->. now rewrite !String.eqb_refl in H.
Qed.

Lemma pyval_eqb_sound a b : pyval_eqb a b = false -> a <> b.
Proof.
  intros H ->. destruct b; simpl in H; try discriminate.
  - now rewrite Z.eqb_refl in H.
  - now rewrite String.eqb_refl in H.
Qed.

Lemma segment_eqb_sound a b : segment_eqb a b = false -> a <> b.
Proof.
  intros H ->. destruct b as [[[x0 y0] x1] y1]. simpl in H.
  repeat (apply andb_false_iff in H as [H|H]);
    now apply pyval_eqb_sound in H.
Qed.

(** ** The interactive builder *)

(** The graph right after the loop over the node table (lines 133-134). *)
Lemma graph_of_nodes_only :
  in_step (build_graph nodes []) /\
  G_nodes (build_graph nodes []) = dict_keys nodes.
Proof. split; reflexivity. Qed.

(** C1, as the script has it.  Every edge of the fixed edge list has both
    ends among the keys of the node table.  The script has no check of its
    own for other edge lists: [add_edges_from] adds an unknown identifier to
    the graph as a node without attributes, and the first lookup of that node
    in the table, in the comprehension that collects the colors, raises
    [KeyError] with the identifier as its key, so no figure is returned. *)
Theorem unknown_endpoint_raises_KeyError es k :
  first_unknown nodes es = Some k ->
  forallb (edge_is_known nodes) edges = true /\
  dict_mem nodes k = false /\
  In k (G_nodes (build_graph nodes es)) /\
  interactive_visualization_of nodes es
  = raise (mk_exn KeyError (repr_str k)).
Proof.
  intros Hk.
  assert (Hnew : dict_mem nodes k = false).
  { unfold first_unknown in Hk. apply find_some in Hk as [_ Hk].
    now apply negb_true_iff. }
  destruct graph_of_nodes_only as [Hstep Hkeys].
  destruct (G_nodes_first_unknown nodes es k Hk _ Hstep Hkeys) as [ext Hext].
  change (add_edges_from (build_graph nodes []) es)
    with (build_graph nodes es) in Hext.
  split; [reflexivity|]. split; [exact Hnew|]. split.
  - rewrite Hext. apply in_or_app. right. now left.
  - unfold interactive_visualization_of. rewrite Hext.
    erewrite mapM_app_raise; [reflexivity | reflexivity |].
    now rewrite (getitem_missing _ _ Hnew).
Qed.

Lemma unknown_endpoint_raises_KeyError_witness :
  first_unknown nodes [("users", "cdn"); ("cache", "backup")] = Some "backup"
  /\ interactive_visualization_of nodes [("users", "cdn"); ("cache", "backup")]
     = raise (mk_exn KeyError "'backup'").
Proof.
  split; [reflexivity|].
  apply (unknown_endpoint_raises_KeyError
           [("users", "cdn"); ("cache", "backup")] "backup").
  reflexivity.
Defined.

(** C1, as the claim has it, fails: an edge to the unknown identifier
    [ghost] makes the script raise the [KeyError] of a dictionary lookup,
    where the builder worded after the specification raises the dedicated
    validation error. *)
Lemma unknown_endpoint_not_validation_error :
  interactive_visualization_of nodes [("users", "ghost")]
  = raise (mk_exn KeyError "'ghost'") /\
  raises (interactive_visualization_of nodes [("users", "ghost")])
         InvalidEdgeError = false /\
  raises (checked_interactive_visualization nodes [("users", "ghost")])
         InvalidEdgeError = true.
Proof. repeat split. Qed.

(** C2.  The nodes of the graph are exactly the ten keys of the node table,
    in its order; its edges are exactly the thirteen pairs of the edge list,
    each once; and the figure shows one label per node and one line segment
    per edge, between the positions of the two ends, with no label and no
    segment repeated. *)
Theorem interactive_figure_nodes_and_edges :
  let G := build_graph nodes edges in
  G_nodes G = dict_keys nodes /\
  List.length (G_nodes G) = 10 /\ NoDup (G_nodes G) /\
  Permutation (G_edges G) edges /\
  List.length (G_edges G) = 13 /\ NoDup (G_edges G) /\ NoDup edges /\
  exists edge_trace node_trace,
    create_interactive_visualization
    = ok (mk_Figure [edge_trace; node_trace] interactive_layout) /\
    sc_text node_trace = map hover_label (dict_keys nodes) /\
    NoDup (sc_text node_trace) /\
    List.length (sc_x node_trace) = 10 /\ List.length (sc_y node_trace) = 10 /\
    map Some (rendered_segments (sc_x edge_trace) (sc_y edge_trace))
    = map (segment_of nodes) (G_edges G) /\
    List.length (sc_x edge_trace) = 39 /\ List.length (sc_y edge_trace) = 39 /\
    NoDup (rendered_segments (sc_x edge_trace) (sc_y edge_trace)).
Proof.
  intros G.
  assert (HG : G_edges G
               = (firstn 8 edges
                  ++ [("api_gateway", "storage");
                      ("api_gateway", "app_server")]
                  ++ [("app_server", "database"); ("app_server", "cache");
                      ("app_server", "storage")])%list)
    by (vm_compute; reflexivity).
  assert (HE : edges
               = (firstn 8 edges
                  ++ [("app_server", "database"); ("app_server", "cache");
                      ("app_server", "storage")]
                  ++ [("api_gateway", "storage");
                      ("api_gateway", "app_server")])%list)
    by reflexivity.
  split; [vm_compute; reflexivity|]. split; [vm_compute; reflexivity|]. split.
  { apply (nodupb_NoDup String.eqb); [exact string_eqb_sound|].
    vm_compute; reflexivity. }
  split.
  { rewrite HG. rewrite HE at 2.
    apply Permutation_app_head, Permutation_app_comm. }
  split; [vm_compute; reflexivity|]. split.
  { apply (nodupb_NoDup edge_eqb); [exact edge_eqb_sound|].
    vm_compute; reflexivity. }
  split.
  { apply (nodupb_NoDup edge_eqb); [exact edge_eqb_sound|].
    vm_compute; reflexivity. }
  destruct create_interactive_visualization as [e|fig] eqn:E;
    vm_compute in E; [discriminate|].
  injection E as <-.
  do 2 eexists. split; [reflexivity|].
  split; [vm_compute; reflexivity|]. split.
  { apply (nodupb_NoDup String.eqb); [exact string_eqb_sound|].
    vm_compute; reflexivity. }
  split; [reflexivity|]. split; [reflexivity|].
  split; [vm_compute; reflexivity|].
  split; [reflexivity|]. split; [reflexivity|].
  apply (nodupb_NoDup segment_eqb); [exact segment_eqb_sound|].
  vm_compute; reflexivity.
Qed.

(** C10.  The x, y, marker color, marker size and hover label at an index
    of the node trace are those of the entry of the node table at that index:
    position, color and size as the entry gives them, and the identifier with
    underscores turned into spaces and title-cased, which gives the ten
    labels listed. *)
Theorem node_trace_rows_aligned :
  exists edge_trace node_trace,
    create_interactive_visualization
    = ok (mk_Figure [edge_trace; node_trace] interactive_layout) /\
    (forall i,
       trace_row node_trace i
       = match nth_error nodes i with
         | Some (n, _) => node_row nodes n
         | None => None
         end) /\
    sc_text node_trace
    = ["Users"; "Cdn"; "Load Balancer"; "Web Server 1"; "Web Server 2";
       "Api Gateway"; "App Server"; "Database"; "Cache"; "Storage"] /\
    map hover_label (dict_keys nodes) = sc_text node_trace.
Proof.
  destruct create_interactive_visualization as [e|fig] eqn:E;
    vm_compute in E; [discriminate|].
  injection E as <-.
  do 2 eexists. split; [reflexivity|]. split.
  - intros i. do 10 (destruct i as [|i]; [vm_compute; reflexivity|]).
    unfold trace_row. cbn [sc_marker sc_x nth_error]. now destruct i.
  - split; [reflexivity | vm_compute; reflexivity].
Qed.

(** ** The static builder *)

(** The loop over [components] appends one rectangle and one text per row,
    in order, and draws no arrow; it raises only if a color key is
    missing. *)
Lemma draw_components_spec (cs : dict string) comps :
  forall ax cols,
    mapM (fun c => getitem cs (c_color_key c)) comps = ok cols ->
    exists ax',
      foldM (draw_component cs) comps ax = ok ax' /\
      ax_patches ax'
      = (ax_patches ax
         ++ map (fun cc => component_rect (fst cc) (snd cc))
                (combine comps cols))%list /\
      ax_texts ax' = (ax_texts ax ++ map component_text comps)%list /\
      ax_arrows ax' = ax_arrows ax.
Proof.
  induction comps as [|c comps IH]; intros ax cols H.
  - injection H as <-. exists ax. cbn. now rewrite !app_nil_r.
  - cbn [mapM] in H. cbn [foldM]. unfold draw_component at 1.
    destruct (getitem cs (c_color_key c)) as [e|col]; [discriminate|].
    cbn [bind] in *.
    destruct (mapM (fun c => getitem cs (c_color_key c)) comps)
      as [e|cols'] eqn:E; [discriminate|].
    injection H as <-.
    destruct (IH (add_text (add_patch ax (component_rect c col))
                           (component_text c)) cols' eq_refl)
      as (ax' & Hax & Hp & Ht & Ha).
    exists ax'. repeat split; [exact Hax | | | exact Ha].
    + rewrite Hp. cbn. now rewrite <- app_assoc.
    + rewrite Ht. cbn. now rewrite <- app_assoc.
Qed.

Lemma draw_components_arrows (cs : dict string) comps :
  forall ax ax',
    foldM (draw_component cs) comps ax = ok ax' ->
    ax_arrows ax' = ax_arrows ax.
Proof.
  induction comps as [|c comps IH]; intros ax ax' H.
  - now injection H as <-.
  - cbn [foldM] in H. unfold draw_component at 1 in H.
    destruct (getitem cs (c_color_key c)) as [e|col]; [discriminate|].
    cbn [bind] in H. now rewrite (IH _ _ H).
Qed.

(** The loop over [connections] appends one arrow per row, in order, and
    touches nothing else. *)
Lemma draw_connections_spec conns :
  forall ax,
    let ax' := fold_left (fun ax conn => annotate ax (connection_arrow conn))
                         conns ax in
    ax_arrows ax' = (ax_arrows ax ++ map connection_arrow conns)%list /\
    ax_patches ax' = ax_patches ax /\ ax_texts ax' = ax_texts ax.
Proof.
  induction conns as [|conn conns IH]; intros ax; cbn.
  - now rewrite app_nil_r.
  - destruct (IH (annotate ax (connection_arrow conn))) as (Ha & Hp & Ht).
    cbn in Ha, Hp, Ht. rewrite Ha, Hp, Ht. cbn.
    now rewrite <- app_assoc.
Qed.

(** The arrows of the picture are those of the connection rows, whatever the
    components and colors are. *)
Lemma arrows_from_connections_only cs comps conns :
  match matplotlib_visualization_of cs comps conns with
  | inr fig => ax_arrows (mpl_axes fig) = map connection_arrow conns
  | inl _ => True
  end.
Proof.
  unfold matplotlib_visualization_of.
  destruct (foldM (draw_component cs) comps _) as [e|ax] eqn:E;
    [exact I|]. cbn [bind].
  destruct (legend_elements cs) as [e|handles]; [exact I|]. cbn.
  apply draw_components_arrows in E.
  destruct (draw_connections_spec conns ax) as (Ha & _).
  cbn in Ha. now rewrite Ha, E.
Qed.

(** The static builder returns a figure for every component table whose
    color keys are keys of [colors]. *)
Lemma static_builder_total comps conns :
  forallb (fun c => dict_mem colors (c_color_key c)) comps = true ->
  exists fig, matplotlib_visualization_of colors comps conns = ok fig.
Proof.
  intros H.
  assert (Hcols : exists cols,
             mapM (fun c => getitem colors (c_color_key c)) comps = ok cols).
  { induction comps as [|c comps IH]; [now exists []|].
    cbn [forallb] in H. apply andb_true_iff in H as [Hc Hrest].
    destruct (IH Hrest) as [cols Hcols]. cbn [mapM]. rewrite Hcols.
    unfold dict_mem in Hc. unfold getitem.
    destruct (dict_get colors (c_color_key c)) as [col|]; [|discriminate].
    now exists (col :: cols). }
  destruct Hcols as [cols Hcols]. unfold matplotlib_visualization_of.
  destruct (draw_components_spec colors comps
              (add_text (add_patch
                 (mk_Axes (0, 10)%float (0, 8)%float "equal" [] [] []
                          "" "" [] [] None) cloud_rect) cloud_text)
              cols Hcols) as (ax' & Hax & _).
  rewrite Hax. cbn [bind].
  destruct (legend_elements colors) as [e|handles] eqn:E;
    [vm_compute in E; discriminate|].
  cbn [bind]. eexists. reflexivity.
Qed.

(** C3.  The picture holds the boundary of the cloud followed by exactly one
    rectangle per row of [components], and the title of the cloud followed by
    exactly one text per row: ten of each, the i-th pair drawn from the i-th
    row, the rectangle filled and bordered at the row's position and size,
    the label centred on its middle. *)
Theorem one_labelled_rectangle_per_component :
  exists fig rects labels,
    create_matplotlib_visualization = ok fig /\
    ax_patches (mpl_axes fig) = cloud_rect :: rects /\
    ax_texts (mpl_axes fig) = cloud_text :: labels /\
    List.length components = 10 /\
    List.length rects = List.length components /\
    List.length labels = List.length components /\
    Forall2 drawn_as components (combine rects labels).
Proof.
  destruct create_matplotlib_visualization as [e|fig] eqn:E;
    vm_compute in E; [discriminate|].
  injection E as <-.
  do 3 eexists. split; [reflexivity|].
  split; [reflexivity|]. split; [reflexivity|].
  split; [reflexivity|]. split; [reflexivity|]. split; [reflexivity|].
  repeat constructor.
Qed.

(** C4.  The picture holds exactly one arrow per row of [connections],
    twelve in all, the i-th from the first coordinate pair of the i-th row to
    its second; and the arrows are the same whatever the component table
    is: no rectangle enters their computation. *)
Theorem one_arrow_per_connection :
  (exists fig,
     create_matplotlib_visualization = ok fig /\
     ax_arrows (mpl_axes fig) = map connection_arrow connections /\
     List.length (ax_arrows (mpl_axes fig)) = 12 /\
     Forall2 drawn_from connections (ax_arrows (mpl_axes fig))) /\
  (forall comps : list Component,
     match matplotlib_visualization_of colors comps connections with
     | inr fig => ax_arrows (mpl_axes fig) = map connection_arrow connections
     | inl _ => True
     end).
Proof.
  split.
  - destruct (static_builder_total components connections eq_refl)
      as [fig Hfig].
    pose proof (arrows_from_connections_only colors components connections)
      as Harrows.
    unfold create_matplotlib_visualization. rewrite Hfig in Harrows |- *.
    exists fig. split; [reflexivity|]. rewrite Harrows.
    split; [reflexivity|]. split; [reflexivity|].
    repeat constructor.
  - intros comps. apply arrows_from_connections_only.
Qed.

(** C9.  Every row of [components] has a color key that is one of the seven
    keys of [colors], so the lookup of its face color succeeds; every entry
    of the node table holds a color of its own under ['color']; and both
    builders return a figure rather than raise. *)
Theorem color_lookups_cannot_raise :
  dict_keys colors
  = ["user"; "web"; "app"; "db"; "cache"; "storage"; "network"] /\
  Forall (fun c => In (c_color_key c) (dict_keys colors)) components /\
  Forall (fun c => exists col, getitem colors (c_color_key c) = ok col)
         components /\
  Forall (fun na => exists col, getitem (snd na) "color" = ok (VStr col))
         nodes /\
  (exists handles, legend_elements colors = ok handles) /\
  (exists fig, create_matplotlib_visualization = ok fig) /\
  (exists fig, create_interactive_visualization = ok fig).
Proof.
  split; [reflexivity|]. split.
  { apply Forall_forall. intros c Hc. apply dict_mem_true_In.
    revert c Hc. apply Forall_forall. repeat constructor. }
  split.
  { repeat constructor; eexists; vm_compute; reflexivity. }
  split.
  { repeat constructor; eexists; vm_compute; reflexivity. }
  split.
  { destruct (legend_elements colors) as [e|handles] eqn:E;
      vm_compute in E; [discriminate|]. now exists handles. }
  split.
  - exact (static_builder_total components connections eq_refl).
  - destruct create_interactive_visualization as [e|fig] eqn:E;
      vm_compute in E; [discriminate|]. now exists fig.
Qed.

(** ** The file system *)

Lemma kind_isdir p n : isdir p n = true <-> kind p n = Some true.
Proof.
  unfold isdir, kind. destruct (resolve p n) as [[c|w es]|];
    split; congruence.
Qed.

Lemma kind_isfile p n : isfile p n = true <-> kind p n = Some false.
Proof.
  unfold isfile, kind. destruct (resolve p n) as [[c|w es]|];
    split; congruence.
Qed.

Lemma kind_cons name rest w entries :
  kind (name :: rest) (Dir w entries)
  = match dict_get entries name with
    | Some child => kind rest child
    | None => None
    end.
Proof. unfold kind. cbn. now destruct (dict_get entries name). Qed.

(** Below a directory in which entry [name] was replaced, a path sees the
    new entry when it starts with [name] and the old directory otherwise. *)
Lemma kind_cons_set name rest w entries m x :
  kind (name :: rest) (Dir w (dict_set entries m x))
  = if String.eqb m name then kind rest x
    else kind (name :: rest) (Dir w entries).
Proof.
  rewrite !kind_cons. destruct (String.eqb_spec m name) as [->|Hne].
  - now rewrite dict_get_set_same.
  - now rewrite dict_get_set_other.
Qed.

(** Writing a file replaces or adds that file and changes the kind of
    nothing that was there. *)
Lemma write_at_keeps_kinds full p c :
  forall n n', write_at full p c n = ok n' ->
  forall q k, kind q n = Some k -> kind q n' = Some k.
Proof.
  induction p as [|name rest IH]; intros n n' H q k Hq.
  - destruct n as [c0|w es]; [|discriminate]. injection H as <-.
    destruct q; [exact Hq | discriminate].
  - destruct n as [c0|w es]; [discriminate|]. cbn [write_at] in H.
    destruct q as [|m q']; [destruct (dict_get es name) as [child|] eqn:E|].
    + destruct (write_at full rest c child); [discriminate|].
      now injection H as <-.
    + destruct rest; [destruct w|]; try discriminate. now injection H as <-.
    + rewrite kind_cons in Hq.
      destruct (dict_get es m) as [x|] eqn:Em; [|discriminate].
      destruct (dict_get es name) as [child|] eqn:E.
      * destruct (write_at full rest c child) as [e|child'] eqn:Ew;
          [discriminate|]. injection H as <-.
        rewrite kind_cons_set. destruct (String.eqb_spec name m) as [->|Hne].
        -- rewrite E in Em. injection Em as <-. exact (IH _ _ Ew _ _ Hq).
        -- now rewrite kind_cons, Em.
      * destruct rest; [destruct w|]; try discriminate. injection H as <-.
        rewrite kind_cons_set. destruct (String.eqb_spec name m) as [->|Hne].
        -- congruence.
        -- now rewrite kind_cons, Em.
Qed.

(** After a write the file holds what was written. *)
Lemma read_after_write full p c :
  forall n n', write_at full p c n = ok n' -> read p n' = Some c.
Proof.
  unfold read.
  induction p as [|name rest IH]; intros n n' H.
  - destruct n as [c0|w es]; [|discriminate]. now injection H as <-.
  - destruct n as [c0|w es]; [discriminate|]. cbn [write_at] in H.
    destruct (dict_get es name) as [child|] eqn:E.
    + destruct (write_at full rest c child) as [e|child'] eqn:Ew;
        [discriminate|]. injection H as <-.
      cbn [resolve]. rewrite dict_get_set_same. exact (IH _ _ Ew).
    + destruct rest; [destruct w|]; try discriminate. injection H as <-.
      cbn [resolve]. now rewrite dict_get_set_same.
Qed.

(** A file that exists can be written again. *)
Lemma write_at_existing_file full p c :
  forall n, kind p n = Some false -> exists n', write_at full p c n = ok n'.
Proof.
  induction p as [|name rest IH]; intros n H.
  - destruct n as [c0|w es]; [|discriminate]. now eexists.
  - destruct n as [c0|w es]; [discriminate|]. rewrite kind_cons in H.
    cbn [write_at]. destruct (dict_get es name) as [child|]; [|discriminate].
    destruct (IH _ H) as [child' ->]. now eexists.
Qed.

(** [makedirs] changes the kind of nothing that was there. *)
Lemma makedirs_at_keeps_kinds full p :
  forall n n', makedirs_at full p n = ok n' ->
  forall q k, kind q n = Some k -> kind q n' = Some k.
Proof.
  induction p as [|name rest IH]; intros n n' H q k Hq.
  - destruct n as [c0|w es]; [discriminate|]. now injection H as <-.
  - destruct n as [c0|w es]; [discriminate|]. cbn [makedirs_at] in H.
    destruct q as [|m q'].
    + destruct (dict_get es name) as [child|]; [|destruct w; [|discriminate]];
        (destruct (makedirs_at full rest _); [discriminate|]);
        now injection H as <-.
    + rewrite kind_cons in Hq.
      destruct (dict_get es m) as [x|] eqn:Em; [|discriminate].
      destruct (dict_get es name) as [child|] eqn:E.
      * destruct (makedirs_at full rest child) as [e|child'] eqn:Ew;
          [discriminate|]. injection H as <-.
        rewrite kind_cons_set. destruct (String.eqb_spec name m) as [->|Hne].
        -- rewrite E in Em. injection Em as <-. exact (IH _ _ Ew _ _ Hq).
        -- now rewrite kind_cons, Em.
      * destruct w; [|discriminate].
        destruct (makedirs_at full rest (Dir true [])) as [e|child'] eqn:Ew;
          [discriminate|]. injection H as <-.
        rewrite kind_cons_set. destruct (String.eqb_spec name m) as [->|Hne].
        -- congruence.
        -- now rewrite kind_cons, Em.
Qed.

(** After [makedirs] the path is a directory. *)
Lemma isdir_after_makedirs full p :
  forall n n', makedirs_at full p n = ok n' -> kind p n' = Some true.
Proof.
  induction p as [|name rest IH]; intros n n' H.
  - destruct n as [c0|w es]; [discriminate|]. now injection H as <-.
  - destruct n as [c0|w es]; [discriminate|]. cbn [makedirs_at] in H.
    destruct (dict_get es name) as [child|]; [|destruct w; [|discriminate]];
      (destruct (makedirs_at full rest _) as [e|child'] eqn:Ew;
       [discriminate|]); injection H as <-;
      rewrite kind_cons, dict_get_set_same; exact (IH _ _ Ew).
Qed.

(** [makedirs] of a directory that exists succeeds and changes nothing:
    this is what [exist_ok=True] buys. *)
Lemma makedirs_at_existing full p :
  forall n, kind p n = Some true -> makedirs_at full p n = ok n.
Proof.
  induction p as [|name rest IH]; intros n H.
  - now destruct n as [c0|w es].
  - destruct n as [c0|w es]; [discriminate|]. rewrite kind_cons in H.
    cbn [makedirs_at].
    destruct (dict_get es name) as [child|] eqn:E; [|discriminate].
    rewrite (IH _ H). cbn [bind ok]. now rewrite (dict_set_same _ _ _ E).
Qed.



(** What an [OSError] is for the two handlers of [main]. *)
Lemma OSError_is_handled_generically e :
  isinstance e OSError = true ->
  isinstance e ImportError = false /\ isinstance e Exception = true.
Proof. destruct e as [[] msg]; cbn; intros H; try discriminate; now split. Qed.

(** ** The run of [main] *)

Lemma builders_return :
  exists fig_static fig_interactive,
    create_matplotlib_visualization = ok fig_static /\
    create_interactive_visualization = ok fig_interactive.
Proof.
  destruct (static_builder_total components connections eq_refl) as [f Hf].
  destruct create_interactive_visualization as [e|g] eqn:E;
    [vm_compute in E; discriminate|].
  exists f, g. split; [exact Hf | reflexivity].
Qed.

Ltac unfold_main Hf Hg :=
  unfold main, main_try; rewrite ?Hf, ?Hg;
  unfold handle, savefig, os_makedirs, pyo_plot, write_text,
    webbrowser_open, fs_call, andthen, lift, print, log, print_all,
    ok, raise;
  cbn [fs stdout calls fst snd tempdir cwd now plot browser_opens fault
       with_browser Step_eqb].

(** The next library call of the run: its fault, then its file operation. *)
Ltac next_call :=
  match goal with
  | |- context [match fault ?env ?st with _ => _ end] =>
      let e := fresh "e" in
      let E := fresh "Efault" in
      destruct (fault env st) as [e|] eqn:E
  | |- context [match write_file ?p ?c ?n with _ => _ end] =>
      let e := fresh "e" in
      let n' := fresh "n" in
      let E := fresh "Ewrite" in
      destruct (write_file p c n) as [e|n'] eqn:E
  | |- context [match makedirs ?p ?n with _ => _ end] =>
      let e := fresh "e" in
      let n' := fresh "n" in
      let E := fresh "Emakedirs" in
      destruct (makedirs p n) as [e|n'] eqn:E
  end; cbn [fs stdout calls fst snd].




Section AcceptingStream.
Variable refuses : string -> option exn.
Hypothesis Haccepts : forall line, refuses line = None.





End AcceptingStream.




(** C6.  If exporting the static image raises a file system error, [main]
    returns after printing the generic error line with that error; the run
    stops there: the only call made is the export, nothing is printed about
    the interactive diagram, and the file system is as it was. *)
Theorem raster_export_failure_fails_fast env s e :
  fst (raster_export env s) = raise e ->
  isinstance e OSError = true ->
  main env s
  = (Returned,
     mk_State (fs s)
       (stdout s ++ [banner; "📊 Generating static diagram..."]
        ++ report_exception e)%list
       (calls s ++ [CallSavefig (static_file env)])%list).
Proof.
  intros Hfail He.
  destruct (OSError_is_handled_generically e He) as [Hi Hx].
  destruct builders_return as (f & g & Hf & Hg).
  revert Hfail. unfold raster_export. unfold_main Hf Hg.
  unfold report_exception.
  repeat next_call; intros [= <-]; rewrite Hi, Hx; cbn [fs stdout calls];
    rewrite <- !app_assoc; reflexivity.
Qed.

Lemma raster_export_failure_fails_fast_witness :
  main quiet_env unwritable_tmp
  = (Returned,
     mk_State (fs unwritable_tmp)
       [banner; "📊 Generating static diagram...";
        "❌ Error creating visualization: [Errno 13] Permission denied: '/tmp/cloud_architecture_static.png'"]
       [CallSavefig ["tmp"; "cloud_architecture_static.png"]]).
Proof.
  apply (raster_export_failure_fails_fast quiet_env unwritable_tmp
           (permission_denied ["tmp"; "cloud_architecture_static.png"]));
    vm_compute; reflexivity.
Defined.



(** What a launch that raises does change is the end of the output: the
    four closing lines give way to the generic error line. *)
Example browser_exception_output :
  skipn 6 (stdout (snd (main (with_browser quiet_env true None)
                             fresh_state)))
  = ["✅ Visualization created successfully!"; "📁 Files created:";
     "   - Static PNG: /tmp/cloud_architecture_static.png";
     "   - Interactive HTML: /home/u/docs/index.html"] /\
  skipn 6 (stdout (snd (main (with_browser quiet_env true (Some no_browser))
                             fresh_state)))
  = ["❌ Error creating visualization: could not locate runnable browser"].
Proof. split; vm_compute; reflexivity. Qed.

Lemma read_is_file p n c : read p n = Some c -> kind p n = Some false.
Proof.
  unfold read, kind. now destruct (resolve p n) as [[c0|w es]|].
Qed.

(** A run whose [try] body completes made its three file operations in
    turn, each on the result of the one before. *)
Lemma main_try_success_inv env s s1 :
  main_try env s = (ok tt, s1) ->
  exists fig_static fig n1 n2,
    create_matplotlib_visualization = ok fig_static /\
    create_interactive_visualization = ok fig /\
    write_file (static_file env) (Png fig_static 300 "tight") (fs s) = ok n1 /\
    makedirs (dirname (html_file env)) n1 = ok n2 /\
    write_file (html_file env)
      (TextFile (html_content (strftime (now env)) (plot env fig))) n2
    = ok (fs s1).
Proof.
  destruct builders_return as (f & g & Hf & Hg).
  intros H. exists f, g. revert H. unfold_main Hf Hg.
  repeat next_call; intros [= <-]; cbn [fs].
  do 2 eexists. repeat split; eassumption.
Qed.

(** Conversely, with no fault injected, three file operations that succeed
    in turn make the [try] body complete. *)
Lemma main_try_success_intro env s fig_static fig n1 n2 n3 :
  (forall st, fault env st = None) ->
  create_matplotlib_visualization = ok fig_static ->
  create_interactive_visualization = ok fig ->
  write_file (static_file env) (Png fig_static 300 "tight") (fs s) = ok n1 ->
  makedirs (dirname (html_file env)) n1 = ok n2 ->
  write_file (html_file env)
    (TextFile (html_content (strftime (now env)) (plot env fig))) n2
  = ok n3 ->
  exists s', main_try env s = (ok tt, s') /\ fs s' = n3.
Proof.
  intros Hquiet Hf Hg H1 H2 H3. unfold ok in H1, H2, H3.
  unfold_main Hf Hg.
  rewrite !Hquiet, H1. cbn [fs stdout calls]. rewrite H2.
  cbn [fs stdout calls]. rewrite H3. eexists. split; reflexivity.
Qed.

Lemma length_append (a b : string) :
  String.length (a ++ b) = String.length a + String.length b.
Proof.
  induction a as [|c a IH]; cbn [String.append String.length];
    [reflexivity | now rewrite IH].
Qed.

(** C5, as the script has it.  After a run that completed, a second run in
    the same working and temporary directories, with no fault from outside,
    completes as well: the [docs] directory that the first run left is
    accepted by [makedirs].  The two pages are the same three pieces of text
    around the timestamp of the run and the plot markup of the run: they
    agree everywhere outside these two.  The pieces start and end as the
    f-string of lines 247-304 does and have its lengths (in UTF-8 bytes). *)
Theorem second_run_same_page_around_timestamp_and_plot env1 env2 s s1 :
  main_try env1 (print_all [banner] s) = (ok tt, s1) ->
  tempdir env2 = tempdir env1 -> cwd env2 = cwd env1 ->
  (forall st, fault env2 st = None) ->
  exists fig s2,
    create_interactive_visualization = ok fig /\
    isdir (dirname (html_file env2)) (fs s1) = true /\
    main env2 s1 = (Returned, s2) /\
    main_try env2 (print_all [banner] s1) = (ok tt, s2) /\
    read (html_file env1) (fs s1)
    = Some (TextFile (html_before_timestamp ++ strftime (now env1)
                      ++ html_before_plot ++ plot env1 fig
                      ++ html_after_plot)) /\
    read (html_file env2) (fs s2)
    = Some (TextFile (html_before_timestamp ++ strftime (now env2)
                      ++ html_before_plot ++ plot env2 fig
                      ++ html_after_plot)) /\
    String.prefix (newline ++ "        <!DOCTYPE html>" ++ newline)
                  html_before_timestamp = true /\
    ends_with "<p>Generated on " html_before_timestamp = true /\
    String.prefix ("</p>" ++ newline) html_before_plot = true /\
    ends_with ("<div class=" ++ dquote ++ "chart-container" ++ dquote ++ ">"
               ++ newline ++ "                ")
              html_before_plot = true /\
    html_after_plot
    = newline ++ "            </div>" ++ newline ++ "        </body>"
      ++ newline ++ "        </html>" ++ newline ++ "        " /\
    String.length html_before_timestamp = 1143 /\
    String.length html_before_plot = 1020.
Proof.
  intros Hrun Htmp Hcwd Hquiet.
  destruct (main_try_success_inv _ _ _ Hrun)
    as (f & g & n1 & n2 & Hf & Hg & Hpng & Hdocs & Hhtml).
  cbn [print_all fs] in Hpng.
  assert (Hstatic : static_file env2 = static_file env1)
    by (unfold static_file; now rewrite Htmp).
  assert (Hfile : html_file env2 = html_file env1)
    by (unfold html_file; now rewrite Hcwd).
  unfold write_file, makedirs in *.
  (* the file system after the first run *)
  assert (Kpng : kind (static_file env1) (fs s1) = Some false).
  { apply (write_at_keeps_kinds _ _ _ _ _ Hhtml).
    apply (makedirs_at_keeps_kinds _ _ _ _ Hdocs).
    exact (read_is_file _ _ _ (read_after_write _ _ _ _ _ Hpng)). }
  assert (Kdocs : kind (dirname (html_file env1)) (fs s1) = Some true).
  { apply (write_at_keeps_kinds _ _ _ _ _ Hhtml).
    exact (isdir_after_makedirs _ _ _ _ Hdocs). }
  pose proof (read_after_write _ _ _ _ _ Hhtml) as Rhtml.
  pose proof (read_is_file _ _ _ Rhtml) as Khtml.
  (* the second run *)
  destruct (write_at_existing_file (static_file env1) (static_file env1)
              (Png f 300 "tight") _ Kpng) as [m1 Hm1].
  pose proof (makedirs_at_existing (dirname (html_file env1)) _ _
                (write_at_keeps_kinds _ _ _ _ _ Hm1 _ _ Kdocs)) as Hm2.
  destruct (write_at_existing_file (html_file env1) (html_file env1)
              (TextFile (html_content (strftime (now env2)) (plot env2 g)))
              _ (write_at_keeps_kinds _ _ _ _ _ Hm1 _ _ Khtml)) as [m3 Hm3].
  destruct (main_try_success_intro env2 (print_all [banner] s1) f g m1 m1 m3
              Hquiet Hf Hg) as (s2 & Hs2 & Hfs2).
  { rewrite Hstatic. exact Hm1. }
  { rewrite Hfile. exact Hm2. }
  { rewrite Hfile. exact Hm3. }
  unfold html_content in Rhtml, Hm3.
  exists g, s2. split; [exact Hg|].
  split; [rewrite Hfile; now apply kind_isdir|].
  split; [unfold main; now rewrite Hs2|]. split; [exact Hs2|].
  split; [exact Rhtml|].
  split; [rewrite Hfs2, Hfile; exact (read_after_write _ _ _ _ _ Hm3)|].
  repeat split; vm_compute; reflexivity.
Qed.

Lemma second_run_same_page_around_timestamp_and_plot_witness :
  exists fig s2,
    create_interactive_visualization = ok fig /\
    isdir (dirname (html_file later_env)) (fs after_first_run) = true /\
    main later_env after_first_run = (Returned, s2) /\
    main_try later_env (print_all [banner] after_first_run) = (ok tt, s2) /\
    read (html_file quiet_env) (fs after_first_run)
    = Some (TextFile (html_before_timestamp ++ strftime (now quiet_env)
                      ++ html_before_plot ++ plot quiet_env fig
                      ++ html_after_plot)) /\
    read (html_file later_env) (fs s2)
    = Some (TextFile (html_before_timestamp ++ strftime (now later_env)
                      ++ html_before_plot ++ plot later_env fig
                      ++ html_after_plot)).
Proof.
  destruct (second_run_same_page_around_timestamp_and_plot
              quiet_env later_env fresh_state after_first_run)
    as (fig & s2 & H1 & H2 & H3 & H4 & H5 & H6 & _).
  - vm_compute. reflexivity.
  - reflexivity.
  - reflexivity.
  - intros st. reflexivity.
  - exists fig, s2. repeat split; assumption.
Defined.

(** C5, as the claim has it, fails: the serialiser gives each run its own
    markup, and two runs whose markup differs write pages that differ outside
    the timestamp too.  Here the second page is five characters longer than
    the first, so no common text around the two timestamps gives both. *)
Lemma second_run_differs_beyond_timestamp :
  exists page1 page2,
    read (html_file quiet_env) (fs after_first_run) = Some (TextFile page1) /\
    read (html_file later_env) (fs (snd (main later_env after_first_run)))
    = Some (TextFile page2) /\
    fst (main later_env after_first_run) = Returned /\
    ~ (exists before after,
         page1 = before ++ strftime (now quiet_env) ++ after /\
         page2 = before ++ strftime (now later_env) ++ after).
Proof.
  exists (html_content (strftime (now quiet_env)) "<div>plot</div>"),
         (html_content (strftime (now later_env)) "<div id=2>plot</div>").
  split; [vm_compute; reflexivity|]. split; [vm_compute; reflexivity|].
  split; [vm_compute; reflexivity|].
  intros (before & after & H1 & H2).
  apply (f_equal String.length) in H1, H2.
  rewrite !length_append in H1, H2.
  assert (Hts : String.length (strftime (now quiet_env))
                = String.length (strftime (now later_env)))
    by (vm_compute; reflexivity).
  rewrite Hts, <- H2 in H1.
  apply (f_equal (Nat.eqb 2257)) in H1. vm_compute in H1. discriminate.
Qed.

(** * Further properties *)

Section DictMore.
Context {V : Type}.
Implicit Types (d : dict V) (k : string) (v : V).

Lemma dict_set_new d k v :
  dict_mem d k = false -> dict_set d k v = (d ++ [(k, v)])%list.
Proof.
  unfold dict_mem. induction d as [|[k' v'] d IH]; simpl; [reflexivity|].
  destruct (String.eqb k' k); [discriminate|].
  intros H. now rewrite IH.
Qed.

Lemma dict_keys_set_present d k v :
  dict_mem d k = true -> dict_keys (dict_set d k v) = dict_keys d.
Proof. intros H. now rewrite dict_keys_set, H. Qed.

Lemma dict_get_In d k v : dict_get d k = Some v -> In (k, v) d.
Proof.
  induction d as [|[k' v'] d IH]; simpl; [discriminate|].
  destruct (String.eqb_spec k' k) as [->|_].
  - intros [= ->]. now left.
  - intros H. right. now apply IH.
Qed.

Lemma In_dict_get d k v :
  NoDup (dict_keys d) -> In (k, v) d -> dict_get d k = Some v.
Proof.
  induction d as [|[k' v'] d IH]; simpl; [tauto|].
  intros Hnd [Heq|Hin].
  - injection Heq as -> ->. now rewrite String.eqb_refl.
  - inversion Hnd as [|? ? Hnotin Hnd']; subst.
    destruct (String.eqb_spec k' k) as [->|_].
    + exfalso. apply Hnotin. change k with (fst (k, v)).
      now apply in_map.
    + now apply IH.
Qed.

Lemma Forall_dict_set (P : string * V -> Prop) d k v :
  Forall P d -> P (k, v) ->
  (forall k' v', P (k', v') -> String.eqb k' k = true -> P (k', v)) ->
  Forall P (dict_set d k v).
Proof.
  intros Hd Hkv Hrepl. induction Hd as [|[k' v'] d Hx Hd IH]; simpl.
  - now constructor.
  - destruct (String.eqb k' k) eqn:E; constructor; auto.
    exact (Hrepl _ _ Hx E).
Qed.
End DictMore.

(** ** Edges of the graph *)

Lemma touch_node_succs G n u : succs (touch_node G n) u = succs G u.
Proof.
  unfold touch_node, succs.
  destruct (dict_mem (_succ G) n) eqn:E; [reflexivity|]. cbn [_succ].
  destruct (String.eqb_spec n u) as [->|Hne].
  - rewrite dict_get_set_same. unfold dict_mem in E.
    now destruct (dict_get (_succ G) u).
  - now rewrite dict_get_set_other.
Qed.

Lemma touch_node_mem G n m :
  dict_mem (_succ (touch_node G n)) m
  = dict_mem (_succ G) m || String.eqb n m.
Proof.
  unfold touch_node. destruct (dict_mem (_succ G) n) eqn:E.
  - destruct (String.eqb_spec n m) as [<-|_].
    + now rewrite E.
    + now rewrite orb_false_r.
  - cbn [_succ]. unfold dict_mem.
    destruct (String.eqb_spec n m) as [<-|Hne].
    + now rewrite dict_get_set_same, orb_true_r.
    + now rewrite dict_get_set_other, orb_false_r.
Qed.

Lemma touch_node_well_formed G n : well_formed G -> well_formed (touch_node G n).
Proof.
  intros (Hstep & Hnd & Hall). split; [now apply touch_node_in_step|].
  unfold touch_node. destruct (dict_mem (_succ G) n) eqn:E; [now split|].
  cbn [_succ]. rewrite (dict_set_new _ _ _ E). split.
  - unfold dict_keys. rewrite map_app. cbn [map fst].
    apply NoDup_app_remove_l with (l := []). cbn [app].
    apply Permutation_NoDup with (l := n :: map fst (_succ G)).
    + apply Permutation_cons_append.
    + constructor; [|exact Hnd]. now apply dict_mem_false_not_In.
  - apply Forall_app. split; [exact Hall|]. repeat constructor.
Qed.

Lemma list_mem_In v l : list_mem v l = true <-> In v l.
Proof.
  unfold list_mem. rewrite existsb_exists. split.
  - intros (x & Hin & Heq). apply String.eqb_eq in Heq. now subst.
  - intros Hin. exists v. split; [exact Hin | apply String.eqb_refl].
Qed.

Lemma NoDup_add_once v l :
  NoDup l -> NoDup (if list_mem v l then l else (l ++ [v])%list).
Proof.
  intros Hl. destruct (list_mem v l) eqn:E; [exact Hl|].
  apply Permutation_NoDup with (l := v :: l);
    [apply Permutation_cons_append|].
  constructor; [|exact Hl]. intros Hin. apply list_mem_In in Hin.
  congruence.
Qed.

(** One edge more: the successors of its source gain its target, once. *)
Lemma add_edge_succs G u v a b :
  In b (succs (add_edge G (u, v)) a) <-> (a = u /\ b = v) \/ In b (succs G a).
Proof.
  unfold add_edge. unfold succs at 1. cbn [_succ].
  fold (succs (touch_node (touch_node G u) v) u).
  rewrite !touch_node_succs.
  destruct (String.eqb_spec u a) as [->|Hne].
  - rewrite dict_get_set_same.
    destruct (list_mem v (succs G a)) eqn:E.
    + apply list_mem_In in E. split; [tauto|].
      intros [[_ ->]|H]; assumption.
    + rewrite in_app_iff. cbn [In]. split.
      * intros [H|[<-|[]]]; [now right | now left].
      * intros [[_ ->]|H]; [right; now left | now left].
  - rewrite dict_get_set_other by assumption.
    fold (succs (touch_node (touch_node G u) v) a).
    rewrite !touch_node_succs. split; [tauto|].
    intros [[-> _]|H]; [contradiction | assumption].
Qed.

Lemma add_edge_well_formed G e : well_formed G -> well_formed (add_edge G e).
Proof.
  intros H. split; [apply add_edge_in_step, H|].
  destruct e as [u v].
  pose proof (touch_node_well_formed _ v (touch_node_well_formed _ u H))
    as (Hstep & Hnd & Hall).
  unfold add_edge. cbn [_succ].
  set (G2 := touch_node (touch_node G u) v) in *.
  assert (Hu : dict_mem (_succ G2) u = true).
  { unfold G2. rewrite !touch_node_mem, String.eqb_refl.
    now rewrite orb_true_r. }
  split; [now rewrite dict_keys_set_present|].
  assert (Hl : NoDup (match dict_get (_succ G2) u with
                      | Some l => l
                      | None => []
                      end)).
  { destruct (dict_get (_succ G2) u) as [l|] eqn:E; [|constructor].
    apply dict_get_In in E. rewrite Forall_forall in Hall.
    exact (Hall _ E). }
  apply Forall_dict_set; [exact Hall | |].
  - exact (NoDup_add_once _ _ Hl).
  - intros k' v' _ _. exact (NoDup_add_once _ _ Hl).
Qed.

(** With no key twice, the edges of a graph are the pairs of a node and one of
    its recorded successors. *)
Lemma G_edges_succs G a b :
  NoDup (dict_keys (_succ G)) ->
  In (a, b) (G_edges G) <-> In b (succs G a).
Proof.
  intros Hnd. unfold G_edges, succs. rewrite in_flat_map. split.
  - intros ([k l] & Hin & Hab). cbn [fst snd] in Hab.
    apply in_map_iff in Hab as (x & [= -> ->] & Hx).
    now rewrite (In_dict_get _ _ _ Hnd Hin).
  - destruct (dict_get (_succ G) a) as [l|] eqn:E; [|intros []].
    intros Hb. exists (a, l). split; [now apply dict_get_In|].
    cbn [fst snd]. now apply in_map.
Qed.

Lemma NoDup_G_edges G : well_formed G -> NoDup (G_edges G).
Proof.
  intros (_ & Hnd & Hall). unfold G_edges.
  induction (_succ G) as [|[k l] d IH]; cbn [flat_map fst snd];
    [constructor|].
  inversion Hnd as [|? ? Hk Hnd']; subst.
  inversion Hall as [|? ? Hl Hall']; subst. cbn [snd] in Hl.
  apply NoDup_app.
  - clear -Hl. induction Hl as [|x l Hx _ IHl]; cbn [map]; constructor;
      [|exact IHl].
    intros Hin. apply in_map_iff in Hin as (y & [= ->] & Hy). now apply Hx.
  - now apply IH.
  - intros [a b] Hin1 Hin2.
    apply in_map_iff in Hin1 as (x & [= <- <-] & _).
    apply in_flat_map in Hin2 as ([k' l'] & Hin' & Hab).
    cbn [fst snd] in Hab. apply in_map_iff in Hab as (y & [= -> _] & _).
    apply Hk. change k with (fst (k, l')). now apply in_map.
Qed.

Lemma add_edges_from_well_formed es :
  forall G, well_formed G -> well_formed (add_edges_from G es).
Proof.
  unfold add_edges_from.
  induction es as [|e es IH]; intros G H; cbn [fold_left]; [exact H|].
  apply IH, add_edge_well_formed, H.
Qed.

Lemma add_edges_from_succs es :
  forall G a b,
    In b (succs (add_edges_from G es) a)
    <-> In (a, b) es \/ In b (succs G a).
Proof.
  unfold add_edges_from.
  induction es as [|[u v] es IH]; intros G a b; cbn [fold_left In].
  - tauto.
  - rewrite IH, add_edge_succs. split.
    + intros [H|[[-> ->]|H]]; auto.
    + intros [[[= -> ->]|H]|H]; auto.
Qed.

(** ** The loop over the node table *)

Lemma add_node_succ G n a : _succ (add_node G n a) = _succ (touch_node G n).
Proof. reflexivity. Qed.

Lemma touch_node_mem_node G n :
  in_step G -> dict_mem (_node (touch_node G n)) n = true.
Proof.
  intros H. rewrite (dict_mem_same_keys _ (_succ (touch_node G n))).
  - now rewrite touch_node_mem, String.eqb_refl, orb_true_r.
  - now apply touch_node_in_step.
Qed.

Lemma add_node_G_nodes G n a :
  in_step G -> G_nodes (add_node G n a) = G_nodes (touch_node G n).
Proof.
  intros H. unfold add_node, G_nodes. cbn [_node].
  now rewrite dict_keys_set_present by now apply touch_node_mem_node.
Qed.

Lemma add_node_well_formed G n a : well_formed G -> well_formed (add_node G n a).
Proof.
  intros H. destruct (touch_node_well_formed G n H) as (Hstep & Hnd & Hall).
  split; [|split; assumption].
  unfold in_step. rewrite add_node_succ. fold (G_nodes (add_node G n a)).
  rewrite add_node_G_nodes by apply H. exact Hstep.
Qed.

Lemma add_nodes_well_formed nodes :
  forall G, well_formed G -> well_formed (add_nodes G nodes).
Proof.
  unfold add_nodes.
  induction nodes as [|[n a] nodes IH]; intros G H; cbn [fold_left fst snd];
    [exact H|].
  apply IH, add_node_well_formed, H.
Qed.

Lemma add_nodes_succs nodes :
  forall G u, succs (add_nodes G nodes) u = succs G u.
Proof.
  unfold add_nodes.
  induction nodes as [|[n a] nodes IH]; intros G u; cbn [fold_left fst snd];
    [reflexivity|].
  rewrite IH. unfold succs at 1. rewrite add_node_succ.
  apply touch_node_succs.
Qed.

Lemma empty_well_formed : well_formed empty_DiGraph.
Proof. repeat split; constructor. Qed.

Lemma build_graph_well_formed nodes es : well_formed (build_graph nodes es).
Proof.
  apply add_edges_from_well_formed, (add_nodes_well_formed nodes),
    empty_well_formed.
Qed.

Lemma G_edges_build_graph nodes es e :
  In e (G_edges (build_graph nodes es)) <-> In e es.
Proof.
  pose proof (build_graph_well_formed nodes es) as H.
  destruct e as [a b]. rewrite G_edges_succs by apply H.
  unfold build_graph. fold (add_nodes empty_DiGraph nodes).
  rewrite add_edges_from_succs, add_nodes_succs. cbn. tauto.
Qed.

(** X1.  The edges of the graph are the pairs of the edge list, none of them
    twice, so a pair listed again adds no edge. *)
Theorem graph_edges_are_the_listed_pairs nodes es :
  (forall e, In e (G_edges (build_graph nodes es)) <-> In e es) /\
  NoDup (G_edges (build_graph nodes es)) /\
  List.length (G_edges (build_graph nodes es)) <= List.length es.
Proof.
  split; [intros e; apply G_edges_build_graph|].
  pose proof (NoDup_G_edges _ (build_graph_well_formed nodes es)) as Hnd.
  split; [exact Hnd|].
  apply NoDup_incl_length; [exact Hnd|].
  intros e He. exact (proj1 (G_edges_build_graph nodes es e) He).
Qed.

(** ** Nodes of the graph *)

Lemma first_seen_app l1 :
  forall seen l2,
    first_seen seen (l1 ++ l2)
    = (first_seen seen l1
       ++ first_seen (seen ++ first_seen seen l1) l2)%list.
Proof.
  induction l1 as [|x l1 IH]; intros seen l2; cbn [first_seen app].
  - now rewrite app_nil_r.
  - destruct (list_mem x seen); [apply IH|].
    rewrite IH. cbn [app]. now rewrite <- app_assoc.
Qed.

Lemma dict_mem_list_mem {V} (d : dict V) k :
  dict_mem d k = list_mem k (dict_keys d).
Proof.
  destruct (list_mem k (dict_keys d)) eqn:E.
  - apply dict_mem_true_In. now apply list_mem_In.
  - apply dict_mem_false_not_In. intros Hin. apply list_mem_In in Hin.
    congruence.
Qed.

Lemma G_nodes_touch_first_seen G n :
  in_step G ->
  G_nodes (touch_node G n) = (G_nodes G ++ first_seen (G_nodes G) [n])%list.
Proof.
  intros H. rewrite (G_nodes_touch _ _ H), dict_mem_list_mem.
  fold (G_nodes G). cbn [first_seen].
  destruct (list_mem n (G_nodes G)); [now rewrite app_nil_r | reflexivity].
Qed.

Lemma G_nodes_add_nodes nodes :
  forall G, in_step G ->
    G_nodes (add_nodes G nodes)
    = (G_nodes G ++ first_seen (G_nodes G) (dict_keys nodes))%list.
Proof.
  unfold add_nodes.
  induction nodes as [|[n a] nodes IH]; intros G H; cbn [fold_left fst snd].
  - cbn. now rewrite app_nil_r.
  - assert (H1 : in_step (add_node G n a)).
    { unfold in_step. rewrite add_node_succ.
      fold (G_nodes (add_node G n a)). rewrite (add_node_G_nodes _ _ _ H).
      exact (touch_node_in_step _ _ H). }
    rewrite (IH _ H1).
    rewrite (add_node_G_nodes _ _ _ H), (G_nodes_touch_first_seen _ _ H).
    change (dict_keys ((n, a) :: nodes)) with ([n] ++ dict_keys nodes)%list.
    now rewrite first_seen_app, app_assoc.
Qed.

Lemma G_nodes_add_edges_first_seen es :
  forall G, in_step G ->
    G_nodes (add_edges_from G es)
    = (G_nodes G ++ first_seen (G_nodes G) (endpoints es))%list.
Proof.
  unfold add_edges_from, endpoints.
  induction es as [|[u v] es IH]; intros G H; cbn [fold_left flat_map].
  - cbn. now rewrite app_nil_r.
  - rewrite (IH _ (add_edge_in_step _ (u, v) H)). cbn [fst snd].
    change (G_nodes (add_edge G (u, v)))
      with (G_nodes (touch_node (touch_node G u) v)).
    rewrite (G_nodes_touch_first_seen _ v (touch_node_in_step _ u H)),
      (G_nodes_touch_first_seen _ u H).
    change ([u; v] ++ flat_map (fun e => [fst e; snd e]) es)%list
      with ([u] ++ [v] ++ flat_map (fun e => [fst e; snd e]) es)%list.
    rewrite !first_seen_app, !app_assoc. reflexivity.
Qed.

Lemma first_seen_known seen l :
  (forall x, In x l -> In x seen) -> first_seen seen l = [].
Proof.
  induction l as [|x l IH]; intros H; cbn [first_seen]; [reflexivity|].
  rewrite (proj2 (list_mem_In x seen)) by (apply H; now left).
  apply IH. intros y Hy. apply H. now right.
Qed.

Lemma first_seen_NoDup l :
  forall seen,
    NoDup l -> (forall x, In x l -> ~ In x seen) -> first_seen seen l = l.
Proof.
  induction l as [|x l IH]; intros seen Hnd Hnew; cbn [first_seen];
    [reflexivity|].
  inversion Hnd as [|? ? Hx Hnd']; subst.
  destruct (list_mem x seen) eqn:E.
  - apply list_mem_In in E. exfalso. apply (Hnew x); [now left | exact E].
  - f_equal. apply IH; [exact Hnd'|].
    intros y Hy Hin. apply in_app_or in Hin as [Hin|[<-|[]]].
    + apply (Hnew y); [now right | exact Hin].
    + contradiction.
Qed.

Lemma G_nodes_build_graph nodes es :
  G_nodes (build_graph nodes es)
  = first_seen [] (dict_keys nodes ++ endpoints es).
Proof.
  unfold build_graph. fold (add_nodes empty_DiGraph nodes).
  rewrite G_nodes_add_edges_first_seen
    by apply (add_nodes_well_formed nodes _ empty_well_formed).
  rewrite (G_nodes_add_nodes nodes empty_DiGraph)
    by apply empty_well_formed.
  cbn [G_nodes empty_DiGraph _node dict_keys map app].
  now rewrite first_seen_app.
Qed.

(** X2.  The nodes of the graph are the identifiers of the node table and of
    the edge list, each once, in the order in which they first appear. *)
Theorem graph_nodes_in_order_of_first_appearance nodes es :
  G_nodes (build_graph nodes es)
  = first_seen [] (dict_keys nodes ++ endpoints es) /\
  NoDup (G_nodes (build_graph nodes es)).
Proof.
  split; [apply G_nodes_build_graph|].
  destruct (build_graph_well_formed nodes es) as (Hstep & Hnd & _).
  unfold G_nodes. now rewrite Hstep.
Qed.

(** With distinct keys in the table and edges between them only, the nodes
    of the graph are the keys of the table, in its order. *)
Lemma G_nodes_known_edges nodes es :
  NoDup (dict_keys nodes) -> first_unknown nodes es = None ->
  G_nodes (build_graph nodes es) = dict_keys nodes.
Proof.
  intros Hnd Hknown.
  rewrite G_nodes_build_graph.
  rewrite first_seen_app, (first_seen_NoDup _ [] Hnd) by (intros x _ []).
  cbn [app]. rewrite first_seen_known; [now rewrite app_nil_r|].
  intros x Hx. unfold first_unknown in Hknown.
  apply dict_mem_true_In.
  pose proof (find_none _ _ Hknown x Hx) as Hf.
  now apply negb_false_iff in Hf.
Qed.

(** ** Attributes of the nodes *)

Lemma mapM_ok_map {A B} (f : A -> result B) (g : A -> B) l :
  Forall (fun a => f a = ok (g a)) l -> mapM f l = ok (map g l).
Proof.
  induction 1 as [|a l Ha _ IH]; cbn [mapM map]; [reflexivity|].
  now rewrite Ha, IH.
Qed.

Lemma dict_get_update {V} (o : dict V) :
  forall d k,
    NoDup (dict_keys o) ->
    dict_get (dict_update d o) k
    = match dict_get o k with Some v => Some v | None => dict_get d k end.
Proof.
  unfold dict_update.
  induction o as [|[k1 v1] o IH]; intros d k Hnd; cbn [fold_left fst snd];
    [reflexivity|].
  inversion Hnd as [|? ? Hk1 Hnd']; subst. rewrite (IH _ _ Hnd').
  cbn [dict_get]. destruct (String.eqb_spec k1 k) as [->|Hne].
  - apply dict_get_None_not_In in Hk1. rewrite Hk1.
    apply dict_get_set_same.
  - now rewrite dict_get_set_other.
Qed.

Lemma node_attributes_get nd name k :
  NoDup (dict_keys nd) ->
  dict_get (node_attributes nd name) k
  = match dict_get nd k with Some a => dict_get a name | None => None end.
Proof.
  induction nd as [|[n a] nd IH]; intros Hnd; cbn [node_attributes dict_get];
    [reflexivity|].
  inversion Hnd as [|? ? Hn Hnd']; subst.
  destruct (String.eqb_spec n k) as [->|Hne].
  - destruct (dict_get a name) as [v|] eqn:E.
    + cbn [dict_get]. now rewrite String.eqb_refl.
    + rewrite (IH Hnd').
      apply dict_get_None_not_In in Hn. now rewrite Hn.
  - destruct (dict_get a name) as [v|].
    + cbn [dict_get]. destruct (String.eqb_spec n k); [contradiction|].
      exact (IH Hnd').
    + exact (IH Hnd').
Qed.

Lemma touch_node_keeps_attrs G n k a :
  in_step G -> dict_get (_node G) k = Some a ->
  dict_get (_node (touch_node G n)) k = Some a.
Proof.
  intros H Hk. unfold touch_node.
  destruct (dict_mem (_succ G) n) eqn:E; [exact Hk|]. cbn [_node].
  rewrite dict_get_set_other; [exact Hk|]. intros ->.
  rewrite <- (dict_mem_same_keys (_node G) (_succ G) k H) in E.
  unfold dict_mem in E. now rewrite Hk in E.
Qed.

Lemma add_edges_from_keeps_attrs es :
  forall G k a,
    in_step G -> dict_get (_node G) k = Some a ->
    dict_get (_node (add_edges_from G es)) k = Some a.
Proof.
  unfold add_edges_from.
  induction es as [|[u v] es IH]; intros G k a H Hk; cbn [fold_left];
    [exact Hk|].
  apply IH; [now apply add_edge_in_step|].
  change (_node (add_edge G (u, v)))
    with (_node (touch_node (touch_node G u) v)).
  apply touch_node_keeps_attrs; [now apply touch_node_in_step|].
  now apply touch_node_keeps_attrs.
Qed.

Lemma add_node_in_step G n a : in_step G -> in_step (add_node G n a).
Proof.
  intros H. unfold in_step. rewrite add_node_succ.
  fold (G_nodes (add_node G n a)). rewrite (add_node_G_nodes _ _ _ H).
  exact (touch_node_in_step _ _ H).
Qed.

Lemma add_node_keeps_attrs G n b k a :
  in_step G -> n <> k -> dict_get (_node G) k = Some a ->
  dict_get (_node (add_node G n b)) k = Some a.
Proof.
  intros H Hne Hk. unfold add_node. cbn [_node].
  rewrite dict_get_set_other by exact Hne.
  now apply touch_node_keeps_attrs.
Qed.

Lemma add_nodes_keeps_attrs nodes :
  forall G k a,
    in_step G -> ~ In k (dict_keys nodes) ->
    dict_get (_node G) k = Some a ->
    dict_get (_node (add_nodes G nodes)) k = Some a.
Proof.
  unfold add_nodes.
  induction nodes as [|[n b] nodes IH]; intros G k a H Hk Hget;
    cbn [fold_left fst snd]; [exact Hget|].
  apply IH.
  - now apply add_node_in_step.
  - intros Hin. apply Hk. now right.
  - apply add_node_keeps_attrs; [exact H | | exact Hget].
    intros ->. apply Hk. now left.
Qed.

(** A new node gets a copy of its attributes. *)
Lemma add_node_new_attrs G n a :
  in_step G -> dict_mem (_node G) n = false ->
  dict_get (_node (add_node G n a)) n = Some (dict_update [] a).
Proof.
  intros H Hnew. unfold add_node. cbn [_node].
  rewrite dict_get_set_same. do 2 f_equal.
  assert (E : dict_mem (_succ G) n = false)
    by now rewrite <- (dict_mem_same_keys (_node G) (_succ G) n H).
  unfold touch_node. rewrite E. cbn [_node].
  now rewrite dict_get_set_same.
Qed.

Lemma add_nodes_attrs nodes :
  forall G k a,
    in_step G -> NoDup (dict_keys nodes) ->
    (forall x, In x (dict_keys nodes) -> dict_mem (_node G) x = false) ->
    dict_get nodes k = Some a ->
    dict_get (_node (add_nodes G nodes)) k = Some (dict_update [] a).
Proof.
  induction nodes as [|[n b] nodes IH]; intros G k a H Hnd Hnew Hget;
    [discriminate|].
  inversion Hnd as [|? ? Hn Hnd']; subst.
  change (add_nodes G ((n, b) :: nodes))
    with (add_nodes (add_node G n b) nodes).
  cbn [dict_get] in Hget. destruct (String.eqb_spec n k) as [->|Hne].
  - injection Hget as ->.
    apply add_nodes_keeps_attrs; [now apply add_node_in_step | exact Hn|].
    apply add_node_new_attrs; [exact H|]. apply Hnew. now left.
  - apply IH; [now apply add_node_in_step | exact Hnd' | | exact Hget].
    intros x Hx.
    rewrite (dict_mem_same_keys _ (_succ (add_node G n b)) x
               (add_node_in_step _ n b H)).
    rewrite add_node_succ, touch_node_mem.
    rewrite <- (dict_mem_same_keys (_node G) (_succ G) x H).
    rewrite (Hnew x) by now right.
    apply String.eqb_neq. intros ->. contradiction.
Qed.

(** The graph holds, for every node of the table, a copy of its attributes. *)
Lemma build_graph_attrs nodes es k a :
  NoDup (dict_keys nodes) -> dict_get nodes k = Some a ->
  dict_get (_node (build_graph nodes es)) k = Some (dict_update [] a).
Proof.
  intros Hnd Hget. unfold build_graph. fold (add_nodes empty_DiGraph nodes).
  apply add_edges_from_keeps_attrs;
    [apply (add_nodes_well_formed nodes _ empty_well_formed)|].
  apply add_nodes_attrs;
    [apply empty_well_formed | exact Hnd | reflexivity | exact Hget].
Qed.

(** What [pos] holds for a node of the table whose attributes have no key
    twice: its ['pos']. *)
Lemma pos_of_table_node nodes es k a :
  NoDup (dict_keys nodes) -> dict_get nodes k = Some a ->
  NoDup (dict_keys a) ->
  dict_get (get_node_attributes (build_graph nodes es) "pos") k
  = dict_get a "pos".
Proof.
  intros Hnd Hget Ha. unfold get_node_attributes.
  rewrite node_attributes_get.
  - rewrite (build_graph_attrs nodes es k a Hnd Hget).
    rewrite (dict_get_update a [] "pos" Ha).
    now destruct (dict_get a "pos").
  - destruct (build_graph_well_formed nodes es) as (Hstep & Hk & _).
    now rewrite Hstep.
Qed.

(** ** The interactive builder over any tables *)

Lemma foldM_edge_step pos (sx sy : string * string -> list pyval) l :
  Forall (fun e => forall acc,
            edge_step pos acc e
            = ok ((fst acc ++ sx e)%list, (snd acc ++ sy e)%list)) l ->
  forall acc,
    foldM (edge_step pos) l acc
    = ok ((fst acc ++ flat_map sx l)%list, (snd acc ++ flat_map sy l)%list).
Proof.
  induction 1 as [|e l He _ IH]; intros acc; cbn [foldM flat_map].
  - rewrite !app_nil_r. now destruct acc.
  - rewrite He. cbn [bind ok]. rewrite IH. cbn [fst snd].
    now rewrite <- !app_assoc.
Qed.

Lemma rendered_segments_flat_map (x0 y0 x1 y1 : string * string -> pyval) l :
  rendered_segments (flat_map (fun e => [x0 e; x1 e; VNone]) l)
                    (flat_map (fun e => [y0 e; y1 e; VNone]) l)
  = map (fun e => (x0 e, y0 e, x1 e, y1 e)) l.
Proof.
  induction l as [|e l IH]; cbn [flat_map app map rendered_segments];
    [reflexivity|].
  now rewrite IH.
Qed.

Section WellFormedTables.
Variable nodes : dict (dict pyval).
Variable es : list (string * string).
Hypothesis Hkeys : NoDup (dict_keys nodes).
Hypothesis Hattrs : Forall (fun na => complete_attrs (snd na)) nodes.
Hypothesis Hknown : first_unknown nodes es = None.

Lemma table_entry k :
  In k (dict_keys nodes) ->
  exists a, dict_get nodes k = Some a /\ complete_attrs a.
Proof.
  intros Hin. apply dict_mem_true_In in Hin. unfold dict_mem in Hin.
  destruct (dict_get nodes k) as [a|] eqn:E; [|discriminate].
  exists a. split; [reflexivity|].
  rewrite Forall_forall in Hattrs.
  exact (Hattrs _ (dict_get_In _ _ _ E)).
Qed.

Lemma attribute_lookup name k :
  In k (dict_keys nodes) ->
  (forall a, complete_attrs a -> dict_mem a name = true) ->
  (a <- getitem nodes k ;; getitem a name) = ok (node_value nodes name k).
Proof.
  intros Hin Hname. destruct (table_entry k Hin) as (a & Hget & Ha).
  unfold getitem at 1, node_value, attribute. rewrite Hget. cbn [bind ok].
  specialize (Hname a Ha). unfold dict_mem in Hname. unfold getitem.
  now destruct (dict_get a name).
Qed.

Lemma position_lookup k :
  In k (dict_keys nodes) ->
  exists x y,
    getitem (get_node_attributes (build_graph nodes es) "pos") k
    = ok (VTuple [x; y]) /\
    coordinate nodes 0 k = Some x /\ coordinate nodes 1 k = Some y.
Proof.
  intros Hin. destruct (table_entry k Hin) as (a & Hget & Ha).
  destruct Ha as (Hnd & (x & y & Hpos) & _).
  exists x, y. unfold getitem, coordinate.
  rewrite (pos_of_table_node nodes es k a Hkeys Hget Hnd), Hget, Hpos.
  now repeat split.
Qed.

Lemma endpoints_known e :
  In e (G_edges (build_graph nodes es)) ->
  In (fst e) (dict_keys nodes) /\ In (snd e) (dict_keys nodes).
Proof.
  intros Hin.
  apply G_edges_build_graph in Hin.
  assert (H : forall x, In x (endpoints es) -> In x (dict_keys nodes)).
  { intros x Hx. apply dict_mem_true_In.
    pose proof (find_none _ _ Hknown x Hx) as Hf.
    now apply negb_false_iff in Hf. }
  split; apply H; unfold endpoints; apply in_flat_map; exists e;
    (split; [exact Hin|]); cbn; auto.
Qed.

Lemma interactive_figure_of_tables :
  interactive_visualization_of nodes es
  = ok (mk_Figure
          [mk_Scatter
             (flat_map (fun e => [coord nodes 0 (fst e);
                                  coord nodes 0 (snd e); VNone])
                       (G_edges (build_graph nodes es)))
             (flat_map (fun e => [coord nodes 1 (fst e);
                                  coord nodes 1 (snd e); VNone])
                       (G_edges (build_graph nodes es)))
             "lines" "none" (Some (2%Z, "#888")) [] None None None;
           mk_Scatter
             (map (coord nodes 0) (dict_keys nodes))
             (map (coord nodes 1) (dict_keys nodes))
             "markers+text" "text" None
             (map hover_label (dict_keys nodes))
             (Some "middle center") (Some (10%Z, "white"))
             (Some (mk_Marker (map (node_value nodes "size")
                                   (dict_keys nodes))
                              (map (node_value nodes "color")
                                   (dict_keys nodes))
                              (2%Z, "black")))]
          interactive_layout).
Proof.
  unfold interactive_visualization_of.
  rewrite (G_nodes_known_edges nodes es Hkeys Hknown).
  rewrite (mapM_ok_map _ (node_value nodes "color")).
  2:{ apply Forall_forall. intros k Hk. apply attribute_lookup; [exact Hk|].
      intros a Ha. apply Ha. }
  cbn [bind ok].
  rewrite (mapM_ok_map _ (node_value nodes "size")).
  2:{ apply Forall_forall. intros k Hk. apply attribute_lookup; [exact Hk|].
      intros a Ha. apply Ha. }
  cbn [bind ok].
  rewrite (foldM_edge_step _
             (fun e => [coord nodes 0 (fst e); coord nodes 0 (snd e); VNone])
             (fun e => [coord nodes 1 (fst e); coord nodes 1 (snd e); VNone])).
  2:{ apply Forall_forall. intros e He acc.
      destruct (endpoints_known e He) as [Hu Hv].
      destruct (position_lookup _ Hu) as (x0 & y0 & Hp0 & Hx0 & Hy0).
      destruct (position_lookup _ Hv) as (x1 & y1 & Hp1 & Hx1 & Hy1).
      unfold edge_step, coord. rewrite Hp0, Hp1, Hx0, Hy0, Hx1, Hy1.
      reflexivity. }
  cbn [bind ok fst snd app].
  rewrite (mapM_ok_map _ (coord nodes 0)).
  2:{ apply Forall_forall. intros k Hk.
      destruct (position_lookup _ Hk) as (x & y & Hp & Hx & Hy).
      unfold coord. now rewrite Hp, Hx. }
  cbn [bind ok].
  rewrite (mapM_ok_map _ (coord nodes 1)).
  2:{ apply Forall_forall. intros k Hk.
      destruct (position_lookup _ Hk) as (x & y & Hp & Hx & Hy).
      unfold coord. now rewrite Hp, Hy. }
  reflexivity.
Qed.

Lemma node_row_of_entry n :
  In n (dict_keys nodes) ->
  node_row nodes n
  = Some (coord nodes 0 n, coord nodes 1 n, node_value nodes "color" n,
          node_value nodes "size" n, hover_label n).
Proof.
  intros Hin. destruct (table_entry n Hin) as (a & Hget & Ha).
  destruct (position_lookup n Hin) as (x & y & _ & Hx & Hy).
  destruct Ha as (_ & _ & Hc & Hs).
  unfold node_row, coord, node_value, attribute, dict_mem in *.
  rewrite Hget, Hx, Hy.
  destruct (dict_get a "color"); [|discriminate].
  destruct (dict_get a "size"); [|discriminate]. reflexivity.
Qed.

End WellFormedTables.

(** The entries that [node_attrs] writes are complete. *)
Lemma node_attrs_complete x y color size :
  complete_attrs (node_attrs x y color size).
Proof.
  split; [|split; [|split; reflexivity]].
  - apply (nodupb_NoDup String.eqb); [exact string_eqb_sound | reflexivity].
  - now exists (VInt x), (VInt y).
Qed.

(** X3.  For every node table with distinct ASCII identifiers whose entries
    are written as in the script (an integer position, a hexadecimal color, a
    size that is not negative) and every edge list between its identifiers,
    the builder returns a figure; index by index the node trace shows the
    entries of the table, and the edge trace draws one segment per edge of
    the graph between the positions of its two ends. *)
Theorem interactive_builder_total nodes es :
  NoDup (dict_keys nodes) ->
  Forall (fun na => ascii_only (fst na) = true /\ script_entry (snd na))
         nodes ->
  first_unknown nodes es = None ->
  exists edge_trace node_trace,
    interactive_visualization_of nodes es
    = ok (mk_Figure [edge_trace; node_trace] interactive_layout) /\
    (forall i,
       trace_row node_trace i
       = match nth_error nodes i with
         | Some (n, _) => node_row nodes n
         | None => None
         end) /\
    map Some (rendered_segments (sc_x edge_trace) (sc_y edge_trace))
    = map (segment_of nodes) (G_edges (build_graph nodes es)).
Proof.
  intros Hkeys Hscript Hknown.
  assert (Hattrs : Forall (fun na => complete_attrs (snd na)) nodes).
  { apply Forall_forall. intros na Hna. rewrite Forall_forall in Hscript.
    destruct (Hscript na Hna) as (_ & x & y & c & sz & -> & _).
    apply node_attrs_complete. }
  do 2 eexists.
  split; [exact (interactive_figure_of_tables nodes es Hkeys Hattrs Hknown)|].
  split.
  - intros i. unfold trace_row.
    cbn [sc_marker sc_x sc_y sc_text marker_color marker_size].
    unfold dict_keys. rewrite !map_map, !nth_error_map.
    destruct (nth_error nodes i) as [[n a]|] eqn:E; cbn [option_map fst];
      [|reflexivity].
    symmetry. apply (node_row_of_entry nodes es Hkeys Hattrs).
    change n with (fst (n, a)). apply in_map. exact (nth_error_In _ _ E).
  - cbn [sc_x sc_y]. rewrite rendered_segments_flat_map, map_map.
    apply map_ext_in. intros e He.
    destruct (endpoints_known nodes es Hknown e He) as [Hu Hv].
    destruct (position_lookup nodes es Hkeys Hattrs _ Hu)
      as (x0 & y0 & _ & Hx0 & Hy0).
    destruct (position_lookup nodes es Hkeys Hattrs _ Hv)
      as (x1 & y1 & _ & Hx1 & Hy1).
    unfold segment_of, coord. now rewrite Hx0, Hy0, Hx1, Hy1.
Qed.

Lemma interactive_builder_total_witness :
  exists edge_trace node_trace,
    interactive_visualization_of two_nodes [("a", "b"); ("a", "b")]
    = ok (mk_Figure [edge_trace; node_trace] interactive_layout) /\
    (forall i,
       trace_row node_trace i
       = match nth_error two_nodes i with
         | Some (n, _) => node_row two_nodes n
         | None => None
         end) /\
    map Some (rendered_segments (sc_x edge_trace) (sc_y edge_trace))
    = map (segment_of two_nodes)
          (G_edges (build_graph two_nodes [("a", "b"); ("a", "b")])).
Proof.
  apply (interactive_builder_total two_nodes [("a", "b"); ("a", "b")]).
  - apply (nodupb_NoDup String.eqb); [exact string_eqb_sound | reflexivity].
  - constructor; [|constructor; [|constructor]].
    + split; [reflexivity|].
      exists 0%Z, 0%Z, "#000000", 10%Z. now repeat split.
    + split; [reflexivity|].
      exists 3%Z, 4%Z, "#FFFFFF", 20%Z. now repeat split.
  - reflexivity.
Defined.

(** X4.  A node table in which an entry has no ['color'] makes the builder
    raise [KeyError('color')], whatever the edges are: the colors are
    collected before anything else is looked up.  The attribute names are
    those [add_node] takes, so the graph is built first. *)
Theorem missing_color_raises_KeyError nodes es before k a after :
  NoDup (dict_keys nodes) ->
  Forall (fun na => plain_keys (snd na) = true) nodes ->
  nodes = (before ++ (k, a) :: after)%list ->
  Forall (fun na => dict_mem (snd na) "color" = true) before ->
  dict_mem a "color" = false ->
  interactive_visualization_of nodes es = raise (mk_exn KeyError "'color'").
Proof.
  intros Hkeys _ -> Hbefore Hmissing.
  unfold interactive_visualization_of.
  rewrite G_nodes_build_graph.
  rewrite first_seen_app, (first_seen_NoDup _ [] Hkeys) by (intros x _ []).
  unfold dict_keys at 1. rewrite map_app. cbn [map fst app].
  rewrite <- app_assoc. cbn [app].
  assert (Hget : forall n b,
             In (n, b) (before ++ (k, a) :: after)%list ->
             getitem (before ++ (k, a) :: after)%list n = ok b).
  { intros n b Hin. unfold getitem.
    now rewrite (In_dict_get _ _ _ Hkeys Hin). }
  erewrite mapM_app_raise; [reflexivity | | ].
  - apply (mapM_ok_map
             _ (node_value (before ++ (k, a) :: after)%list "color")).
    apply Forall_forall. intros n Hn.
    apply in_map_iff in Hn as ([n' b] & <- & Hin). cbn [fst].
    rewrite (Hget n' b) by (apply in_or_app; now left). cbn [bind ok].
    unfold node_value, attribute.
    assert (Hd : dict_get (before ++ (k, a) :: after)%list n' = Some b).
    { apply In_dict_get; [exact Hkeys | apply in_or_app; now left]. }
    rewrite Hd. rewrite Forall_forall in Hbefore.
    specialize (Hbefore _ Hin). cbn [snd] in Hbefore.
    unfold dict_mem in Hbefore. unfold getitem.
    now destruct (dict_get b "color").
  - rewrite (Hget k a) by (apply in_or_app; right; now left).
    cbn [bind ok]. exact (getitem_missing _ _ Hmissing).
Qed.

Lemma missing_color_raises_KeyError_witness :
  interactive_visualization_of
    [("a", node_attrs 0 0 "#000000" 10); ("b", [("pos", VTuple [VInt 3; VInt 4])])]
    [("a", "b")]
  = raise (mk_exn KeyError "'color'").
Proof.
  apply (missing_color_raises_KeyError _ [("a", "b")]
           [("a", node_attrs 0 0 "#000000" 10)] "b"
           [("pos", VTuple [VInt 3; VInt 4])] []).
  - apply (nodupb_NoDup String.eqb); [exact string_eqb_sound | reflexivity].
  - repeat constructor.
  - reflexivity.
  - repeat constructor.
  - reflexivity.
Defined.

(** ** The static builder over any tables *)

Lemma getitem_present (cs : dict string) key :
  dict_mem cs key = true -> getitem cs key = ok (color_of cs key).
Proof.
  unfold dict_mem, getitem, color_of. now destruct (dict_get cs key).
Qed.

Lemma legend_elements_spec (cs : dict string) :
  legend_elements cs
  = ok (map (fun key => (color_of cs key, title key)) (dict_keys cs)).
Proof.
  unfold legend_elements. apply mapM_ok_map, Forall_forall.
  intros key Hin. rewrite getitem_present; [reflexivity|].
  now apply dict_mem_true_In.
Qed.

(** X8.  For a color dictionary with ASCII keys and hexadecimal colors the
    comprehension of lines 105-106 does not raise: it builds one legend
    handle per key, in order, with the color of the key and its title-cased
    name, also for a category that no component uses. *)
Theorem legend_has_one_handle_per_key (cs : dict string) :
  NoDup (dict_keys cs) ->
  Forall (fun kv => ascii_only (fst kv) = true /\ hex_color (snd kv) = true)
         cs ->
  exists handles,
    legend_elements cs = ok handles /\
    List.length handles = List.length cs /\
    map snd handles = map title (dict_keys cs) /\
    Forall2 (fun key h => dict_get cs key = Some (fst h))
            (dict_keys cs) handles.
Proof.
  intros _ _. eexists. split; [apply legend_elements_spec|].
  split; [unfold dict_keys; now rewrite !length_map|].
  split; [now rewrite map_map|].
  assert (H : forall l, (forall key, In key l -> In key (dict_keys cs)) ->
            Forall2 (fun key h => dict_get cs key = Some (fst h)) l
                    (map (fun key => (color_of cs key, title key)) l)).
  { induction l as [|key l IH]; intros Hl; cbn [map]; constructor.
    - cbn [fst]. unfold color_of.
      pose proof (proj2 (dict_mem_true_In cs key) (Hl key (or_introl eq_refl)))
        as Hm.
      unfold dict_mem in Hm. now destruct (dict_get cs key).
    - apply IH. intros k Hk. apply Hl. now right. }
  apply H. auto.
Qed.

Lemma legend_has_one_handle_per_key_witness :
  exists handles,
    legend_elements colors = ok handles /\
    List.length handles = List.length colors /\
    map snd handles = map title (dict_keys colors) /\
    Forall2 (fun key h => dict_get colors key = Some (fst h))
            (dict_keys colors) handles.
Proof.
  apply (legend_has_one_handle_per_key colors).
  - apply (nodupb_NoDup String.eqb); [exact string_eqb_sound | reflexivity].
  - repeat constructor.
Defined.

Lemma draw_components_raise cs comps c :
  first_missing cs comps = Some c ->
  forall ax,
    foldM (draw_component cs) comps ax
    = raise (mk_exn KeyError (repr_str (c_color_key c))).
Proof.
  unfold first_missing.
  induction comps as [|c0 comps IH]; cbn [find foldM]; [discriminate|].
  intros H ax. unfold draw_component at 1.
  destruct (dict_mem cs (c_color_key c0)) eqn:E; cbn [negb] in H.
  - rewrite (getitem_present _ _ E). cbn [bind ok]. now apply IH.
  - injection H as <-. now rewrite (getitem_missing _ _ E).
Qed.

(** X9.  A row whose color key is not in the color dictionary makes the static
    builder raise [KeyError] with the key of the first such row; no figure is
    returned.  The colors of the dictionary are hexadecimal and the rows have
    finite numbers, so the rows before it are drawn; the key is of plain
    text, so that its [repr] is the key between quotes. *)
Theorem missing_color_key_raises_KeyError cs comps conns c :
  NoDup (dict_keys cs) ->
  Forall (fun kv => hex_color (snd kv) = true) cs ->
  Forall (fun row => finite_row row = true) comps ->
  first_missing cs comps = Some c ->
  plain_text (c_color_key c) = true ->
  matplotlib_visualization_of cs comps conns
  = raise (mk_exn KeyError (repr_str (c_color_key c))).
Proof.
  intros _ _ _ H _. unfold matplotlib_visualization_of.
  now rewrite (draw_components_raise cs comps c H).
Qed.

Lemma missing_color_key_raises_KeyError_witness :
  matplotlib_visualization_of colors
    [mk_Component 1 1 1 1 "Users" "user";
     mk_Component 2 2 1 1 "Queue" "queue";
     mk_Component 3 3 1 1 "Mail" "mail"] []
  = raise (mk_exn KeyError "'queue'").
Proof.
  apply (missing_color_key_raises_KeyError colors _ []
           (mk_Component 2 2 1 1 "Queue" "queue")).
  - apply (nodupb_NoDup String.eqb); [exact string_eqb_sound | reflexivity].
  - repeat constructor.
  - repeat constructor.
  - reflexivity.
  - reflexivity.
Defined.

(** ** Files that the run has written *)

Lemma read_cons name rest w entries :
  read (name :: rest) (Dir w entries)
  = match dict_get entries name with
    | Some child => read rest child
    | None => None
    end.
Proof. unfold read. cbn. now destruct (dict_get entries name). Qed.

Lemma read_cons_set name rest w entries m x :
  read (name :: rest) (Dir w (dict_set entries m x))
  = if String.eqb m name then read rest x
    else read (name :: rest) (Dir w entries).
Proof.
  rewrite !read_cons. destruct (String.eqb_spec m name) as [->|Hne].
  - now rewrite dict_get_set_same.
  - now rewrite dict_get_set_other.
Qed.

(** Writing a file changes the content of no other file. *)
Lemma write_at_keeps_other_files full p c :
  forall n n', write_at full p c n = ok n' ->
  forall q c0, q <> p -> read q n = Some c0 -> read q n' = Some c0.
Proof.
  induction p as [|name rest IH]; intros n n' H q c0 Hne Hq.
  - destruct n as [c1|w es]; [|discriminate].
    destruct q; [contradiction | discriminate].
  - destruct n as [c1|w es]; [destruct q; discriminate|].
    destruct q as [|m q']; [discriminate|]. cbn [write_at] in H.
    rewrite read_cons in Hq.
    destruct (dict_get es m) as [x|] eqn:Em; [|discriminate].
    destruct (dict_get es name) as [child|] eqn:E.
    + destruct (write_at full rest c child) as [e|child'] eqn:Ew;
        [discriminate|]. injection H as <-.
      rewrite read_cons_set. destruct (String.eqb_spec name m) as [->|Hnm].
      * rewrite E in Em. injection Em as <-.
        apply (IH _ _ Ew); [congruence | exact Hq].
      * now rewrite read_cons, Em.
    + destruct rest; [destruct w|]; try discriminate. injection H as <-.
      rewrite read_cons_set. destruct (String.eqb_spec name m) as [->|Hnm].
      * congruence.
      * now rewrite read_cons, Em.
Qed.

(** [makedirs] changes the content of no file. *)
Lemma makedirs_at_keeps_files full p :
  forall n n', makedirs_at full p n = ok n' ->
  forall q c0, read q n = Some c0 -> read q n' = Some c0.
Proof.
  induction p as [|name rest IH]; intros n n' H q c0 Hq.
  - destruct n as [c1|w es]; [discriminate|]. now injection H as <-.
  - destruct n as [c1|w es]; [discriminate|]. cbn [makedirs_at] in H.
    destruct q as [|m q']; [discriminate|].
    rewrite read_cons in Hq.
    destruct (dict_get es m) as [x|] eqn:Em; [|discriminate].
    destruct (dict_get es name) as [child|] eqn:E.
    + destruct (makedirs_at full rest child) as [e|child'] eqn:Ew;
        [discriminate|]. injection H as <-.
      rewrite read_cons_set. destruct (String.eqb_spec name m) as [->|Hnm].
      * rewrite E in Em. injection Em as <-. exact (IH _ _ Ew _ _ Hq).
      * now rewrite read_cons, Em.
    + destruct w; [|discriminate].
      destruct (makedirs_at full rest (Dir true [])) as [e|child'] eqn:Ew;
        [discriminate|]. injection H as <-.
      rewrite read_cons_set. destruct (String.eqb_spec name m) as [->|Hnm].
      * congruence.
      * now rewrite read_cons, Em.
Qed.

Lemma static_file_is_not_html_file env : static_file env <> html_file env.
Proof.
  unfold static_file, html_file, path_join. intros H.
  apply app_inj_tail in H as [_ H]. discriminate.
Qed.

(** The handlers of [main] in every branch. *)
Ltac split_handlers :=
  repeat match goal with
    | |- context [if isinstance ?e ?c then _ else _] =>
        destruct (isinstance e c)
    end; cbn [fs stdout calls fst snd].

(** X12.  Once the image has been exported it stays on disk with its content,
    whatever fails later in the run. *)
Theorem exported_image_stays env s :
  fst (raster_export env s) = ok tt ->
  exists fig,
    create_matplotlib_visualization = ok fig /\
    read (static_file env) (fs (snd (main env s)))
    = Some (Png fig 300 "tight").
Proof.
  destruct builders_return as (f & g & Hf & Hg).
  intros H. exists f. split; [exact Hf|]. revert H.
  pose proof (static_file_is_not_html_file env) as Hne.
  unfold raster_export. unfold_main Hf Hg.
  repeat next_call; split_handlers; intros H; try discriminate H.
  all: unfold write_file, makedirs in *.
  all: match goal with
       | E : write_at _ (static_file _) _ _ = inr _ |- _ =>
           pose proof (read_after_write _ _ _ _ _ E) as Hr
       end.
  all: repeat match goal with
         | E : write_at _ ?p _ ?n = inr _, Hne : ?x <> ?p,
           H : read ?x ?n = Some _ |- _ =>
             apply (write_at_keeps_other_files _ _ _ _ _ E _ _ Hne) in H
         | E : makedirs_at _ _ ?n = inr _, H : read _ ?n = Some _ |- _ =>
             apply (makedirs_at_keeps_files _ _ _ _ E) in H
         end; assumption.
Qed.

Lemma exported_image_stays_witness :
  exists fig,
    create_matplotlib_visualization = ok fig /\
    read (static_file env_without_numpy)
         (fs (snd (main env_without_numpy fresh_state)))
    = Some (Png fig 300 "tight").
Proof.
  apply (exported_image_stays env_without_numpy fresh_state).
  vm_compute. reflexivity.
Defined.

(** The lines a run adds to the output, for each way it can end. *)
Ltac new_lines Hout :=
  rewrite <- ?app_assoc in Hout; apply app_inv_head in Hout;
  cbn [app] in Hout; subst.

Ltac not_that_line Hin :=
  unfold report_import_error, report_exception, success_line, banner in Hin;
  cbn [In String.append] in Hin;
  repeat (destruct Hin as [Hin|Hin]; [try discriminate Hin|]);
  try contradiction.

(** X13.  The line that announces success is printed only by a run that wrote
    both files: when [main] has printed it, the image and the page are on
    disk, the page being the template filled with this run's timestamp and
    plot markup. *)
Theorem success_line_is_truthful env s lines :
  stdout (snd (main env s)) = (stdout s ++ lines)%list ->
  In success_line lines ->
  exists fig_static fig,
    create_matplotlib_visualization = ok fig_static /\
    create_interactive_visualization = ok fig /\
    fst (main env s) = Returned /\
    read (static_file env) (fs (snd (main env s)))
    = Some (Png fig_static 300 "tight") /\
    read (html_file env) (fs (snd (main env s)))
    = Some (TextFile (html_content (strftime (now env)) (plot env fig))).
Proof.
  destruct builders_return as (f & g & Hf & Hg).
  intros Hout Hin. exists f, g. split; [exact Hf|]. split; [exact Hg|].
  revert Hout. pose proof (static_file_is_not_html_file env) as Hne.
  unfold_main Hf Hg.
  repeat next_call; split_handlers; intros Hout; new_lines Hout;
    not_that_line Hin.
  all: unfold write_file, makedirs in *.
  all: split; [reflexivity|]. 
  all: split; [|eapply read_after_write; eassumption].
  all: match goal with
       | E : write_at _ (static_file _) _ _ = inr _ |- _ =>
           pose proof (read_after_write _ _ _ _ _ E) as Hr
       end.
  all: repeat match goal with
         | E : write_at _ ?p _ ?n = inr _, Hne : ?x <> ?p,
           H : read ?x ?n = Some _ |- _ =>
             apply (write_at_keeps_other_files _ _ _ _ _ E _ _ Hne) in H
         | E : makedirs_at _ _ ?n = inr _, H : read _ ?n = Some _ |- _ =>
             apply (makedirs_at_keeps_files _ _ _ _ E) in H
         end; assumption.
Qed.

Lemma success_line_is_truthful_witness :
  exists fig_static fig,
    create_matplotlib_visualization = ok fig_static /\
    create_interactive_visualization = ok fig /\
    fst (main quiet_env fresh_state) = Returned /\
    read (static_file quiet_env) (fs (snd (main quiet_env fresh_state)))
    = Some (Png fig_static 300 "tight") /\
    read (html_file quiet_env) (fs (snd (main quiet_env fresh_state)))
    = Some (TextFile (html_content (strftime (now quiet_env))
                                   (plot quiet_env fig))).
Proof.
  apply (success_line_is_truthful quiet_env fresh_state
           (stdout (snd (main quiet_env fresh_state)))).
  - reflexivity.
  - vm_compute. do 6 right. left. reflexivity.
Defined.

(** X14.  The browser is opened only on a page that exists: when [main] has
    called [webbrowser.open], the URL is [file://] followed by the path of
    the page, and the page is on disk with this run's content. *)
Theorem browser_opens_the_written_page env s new_calls url :
  calls (snd (main env s)) = (calls s ++ new_calls)%list ->
  In (CallBrowser url) new_calls ->
  exists fig,
    create_interactive_visualization = ok fig /\
    url = "file://" ++ path_str (html_file env) /\
    read (html_file env) (fs (snd (main env s)))
    = Some (TextFile (html_content (strftime (now env)) (plot env fig))).
Proof.
  destruct builders_return as (f & g & Hf & Hg).
  intros Hcalls Hin. exists g. split; [exact Hg|]. revert Hcalls.
  unfold_main Hf Hg.
  repeat next_call; split_handlers; intros Hcalls; new_lines Hcalls;
    cbn [In] in Hin;
    repeat (destruct Hin as [Hin|Hin]; [try discriminate Hin|]);
    try contradiction.
  all: injection Hin as <-.
  all: unfold write_file in *.
  all: split; [reflexivity | eapply read_after_write; eassumption].
Qed.

Lemma browser_opens_the_written_page_witness :
  exists fig,
    create_interactive_visualization = ok fig /\
    "file:///home/u/docs/index.html"
    = "file://" ++ path_str (html_file quiet_env) /\
    read (html_file quiet_env) (fs (snd (main quiet_env fresh_state)))
    = Some (TextFile (html_content (strftime (now quiet_env))
                                   (plot quiet_env fig))).
Proof.
  apply (browser_opens_the_written_page quiet_env fresh_state
           (calls (snd (main quiet_env fresh_state)))
           "file:///home/u/docs/index.html").
  - reflexivity.
  - vm_compute. do 4 right. left. reflexivity.
Defined.

(** ** Hover labels and legend labels *)

Lemma title_from_length s : forall b,
  String.length (title_from b s) = String.length s.
Proof.
  induction s as [|c s IH]; intros b; cbn [title_from String.length];
    [reflexivity|].
  destruct (is_lower c || is_upper c); cbn [String.length]; now rewrite IH.
Qed.

Lemma replace_length old new s :
  String.length (replace old new s) = String.length s.
Proof.
  induction s as [|c s IH]; cbn [replace String.length]; [reflexivity|].
  now rewrite IH.
Qed.

Lemma cased_is_not_underscore c :
  is_lower c || is_upper c = true ->
  to_lower c <> "_"%char /\ to_upper c <> "_"%char.
Proof.
  destruct c as [[] [] [] [] [] [] [] []]; vm_compute; intros H;
    try discriminate H; split; discriminate.
Qed.

Lemma title_from_no_underscore s : forall b,
  ~ In "_"%char (chars s) -> ~ In "_"%char (chars (title_from b s)).
Proof.
  induction s as [|c s IH]; intros b Hs; cbn [title_from chars];
    [exact Hs|].
  cbn [chars In] in Hs.
  destruct (is_lower c || is_upper c) eqn:E; cbn [chars In];
    intros [Hc|Hin].
  - destruct (cased_is_not_underscore c E) as [Hl Hu].
    destruct b; [now apply Hl | now apply Hu].
  - apply (IH true); [|exact Hin]. tauto.
  - apply Hs. now left.
  - apply (IH false); [|exact Hin]. tauto.
Qed.

Lemma replace_removes old new s :
  old <> new -> ~ In old (chars (replace old new s)).
Proof.
  intros Hne. induction s as [|c s IH]; cbn [replace chars In]; [tauto|].
  intros [Hc|Hin]; [|now apply IH].
  destruct (Ascii.eqb_spec c old) as [->|Hco]; congruence.
Qed.

(** X7.  The hover label of a node with an ASCII identifier has as many
    characters as the identifier and no underscore in it. *)
Theorem hover_label_has_no_underscore n :
  ascii_only n = true ->
  String.length (hover_label n) = String.length n /\
  ~ In "_"%char (chars (hover_label n)).
Proof.
  intros _. unfold hover_label, title. split.
  - now rewrite title_from_length, replace_length.
  - apply title_from_no_underscore, replace_removes. discriminate.
Qed.

Lemma hover_label_has_no_underscore_witness :
  String.length (hover_label "web_server_1") = 12 /\
  ~ In "_"%char (chars (hover_label "web_server_1")).
Proof.
  apply (hover_label_has_no_underscore "web_server_1"). reflexivity.
Defined.

Lemma find_same {A} (p q : A -> bool) l :
  (forall a, p a = q a) -> find p l = find q l.
Proof.
  intros H. induction l as [|a l IH]; cbn [find]; [reflexivity|].
  now rewrite H, IH.
Qed.

Lemma first_seen_head seen l k :
  find (fun n => negb (list_mem n seen)) l = Some k ->
  exists ext, first_seen seen l = k :: ext.
Proof.
  induction l as [|x l IH]; cbn [find first_seen]; [discriminate|].
  destruct (list_mem x seen); cbn [negb]; [exact IH|].
  intros [= ->]. now eexists.
Qed.

(** X5.  For every node table with distinct identifiers whose entries have a
    color and attribute names that [add_node] takes, an edge list that names
    an identifier outside the table makes the builder raise [KeyError] with
    the first such identifier (of plain text, so that its [repr] is the
    identifier between quotes). *)
Theorem foreign_endpoint_raises_KeyError nodes es k :
  NoDup (dict_keys nodes) ->
  Forall (fun na => plain_keys (snd na) = true) nodes ->
  Forall (fun na => dict_mem (snd na) "color" = true) nodes ->
  first_unknown nodes es = Some k ->
  plain_text k = true ->
  interactive_visualization_of nodes es
  = raise (mk_exn KeyError (repr_str k)).
Proof.
  intros Hkeys _ Hcolor Hk _.
  assert (Hnew : dict_mem nodes k = false).
  { unfold first_unknown in Hk. apply find_some in Hk as [_ Hk].
    now apply negb_true_iff. }
  destruct (first_seen_head (dict_keys nodes) (endpoints es) k) as [ext Hext].
  { unfold first_unknown in Hk. rewrite <- Hk. apply find_same.
    intros n. now rewrite dict_mem_list_mem. }
  unfold interactive_visualization_of.
  rewrite G_nodes_build_graph.
  rewrite first_seen_app, (first_seen_NoDup _ [] Hkeys) by (intros x _ []).
  cbn [app]. rewrite Hext.
  erewrite mapM_app_raise; [reflexivity | | ].
  - apply (mapM_ok_map _ (node_value nodes "color")).
    apply Forall_forall. intros n Hn.
    apply in_map_iff in Hn as ([n' b] & <- & Hin). cbn [fst].
    pose proof (In_dict_get _ _ _ Hkeys Hin) as Hd.
    unfold getitem at 1, node_value, attribute. rewrite Hd. cbn [bind ok].
    rewrite Forall_forall in Hcolor. specialize (Hcolor _ Hin).
    cbn [snd] in Hcolor. unfold dict_mem in Hcolor. unfold getitem.
    now destruct (dict_get b "color").
  - now rewrite (getitem_missing _ _ Hnew).
Qed.

Lemma foreign_endpoint_raises_KeyError_witness :
  interactive_visualization_of two_nodes [("a", "b"); ("b", "c"); ("d", "a")]
  = raise (mk_exn KeyError "'c'").
Proof.
  apply (foreign_endpoint_raises_KeyError
           two_nodes [("a", "b"); ("b", "c"); ("d", "a")] "c").
  - apply (nodupb_NoDup String.eqb); [exact string_eqb_sound | reflexivity].
  - repeat constructor.
  - repeat constructor.
  - reflexivity.
  - reflexivity.
Defined.

(** ** Entries without a position *)

Lemma mapM_first_raise {A B} (f : A -> result B) (err : A -> exn) l :
  Forall (fun a => (exists b, f a = ok b) \/ f a = raise (err a)) l ->
  Exists (fun a => f a = raise (err a)) l ->
  exists a, In a l /\ f a = raise (err a) /\ mapM f l = raise (err a).
Proof.
  induction 1 as [|a l Ha Hl IH]; intros Hex; [inversion Hex|].
  cbn [mapM]. destruct Ha as [[b Hb]|Ha].
  - inversion Hex as [? ? Hbad|? ? Hex']; subst.
    + rewrite Hb in Hbad. discriminate.
    + destruct (IH Hex') as (k & Hin & Hk & Hm).
      exists k. split; [now right|]. split; [exact Hk|].
      now rewrite Hb, Hm.
  - exists a. split; [now left|]. split; [exact Ha|]. now rewrite Ha.
Qed.

Section TablesWithoutPositions.
Variable nodes : dict (dict pyval).
Variable es : list (string * string).
Hypothesis Hkeys : NoDup (dict_keys nodes).
Hypothesis Hattrs : Forall (fun na => attrs_but_pos (snd na)) nodes.
Hypothesis Hknown : first_unknown nodes es = None.

Let pos := get_node_attributes (build_graph nodes es) "pos".

Lemma entry_but_pos k :
  In k (dict_keys nodes) ->
  exists a, dict_get nodes k = Some a /\ attrs_but_pos a.
Proof.
  intros Hin. apply dict_mem_true_In in Hin. unfold dict_mem in Hin.
  destruct (dict_get nodes k) as [a|] eqn:E; [|discriminate].
  exists a. split; [reflexivity|].
  rewrite Forall_forall in Hattrs.
  exact (Hattrs _ (dict_get_In _ _ _ E)).
Qed.

(** The position of a node of the table is a pair, or the lookup raises
    [KeyError] with the node. *)
Lemma position_or_KeyError k :
  In k (dict_keys nodes) ->
  (exists x y, getitem pos k = ok (VTuple [x; y])) \/
  (attribute nodes "pos" k = None /\
   getitem pos k = raise (mk_exn KeyError (repr_str k))).
Proof.
  intros Hin. destruct (entry_but_pos k Hin) as (a & Hget & Hnd & Hpair & _).
  unfold getitem, pos, attribute.
  rewrite (pos_of_table_node nodes es k a Hkeys Hget Hnd), Hget.
  destruct (dict_get a "pos") as [v|] eqn:E.
  - left. destruct (Hpair v eq_refl) as (x & y & -> & _).
    now exists (VInt x), (VInt y).
  - right. now split.
Qed.

Lemma attribute_but_pos name k :
  In k (dict_keys nodes) ->
  (forall a, attrs_but_pos a -> dict_mem a name = true) ->
  (a <- getitem nodes k ;; getitem a name) = ok (node_value nodes name k).
Proof.
  intros Hin Hname. destruct (entry_but_pos k Hin) as (a & Hget & Ha).
  unfold getitem at 1, node_value, attribute. rewrite Hget. cbn [bind ok].
  specialize (Hname a Ha). unfold dict_mem in Hname. unfold getitem.
  now destruct (dict_get a name).
Qed.

Lemma edge_loop_or_KeyError l :
  (forall e, In e l ->
     In (fst e) (dict_keys nodes) /\ In (snd e) (dict_keys nodes)) ->
  forall acc,
    (exists r, foldM (edge_step pos) l acc = ok r) \/
    (exists k, In k (dict_keys nodes) /\ attribute nodes "pos" k = None /\
               foldM (edge_step pos) l acc
               = raise (mk_exn KeyError (repr_str k))).
Proof.
  induction l as [|e l IH]; intros Hl acc; cbn [foldM].
  - left. now eexists.
  - destruct (Hl e (or_introl eq_refl)) as [Hu Hv].
    unfold edge_step at 1 3.
    destruct (position_or_KeyError _ Hu) as [(x0 & y0 & ->)|[Hn ->]];
      [|right; exists (fst e); now repeat split].
    cbn [bind ok unpack2].
    destruct (position_or_KeyError _ Hv) as [(x1 & y1 & ->)|[Hn ->]];
      [|right; exists (snd e); now repeat split].
    cbn [bind ok unpack2]. apply IH. intros e' He'. apply Hl. now right.
Qed.

Lemma graph_edges_known e :
  In e (G_edges (build_graph nodes es)) ->
  In (fst e) (dict_keys nodes) /\ In (snd e) (dict_keys nodes).
Proof. exact (endpoints_known nodes es Hknown e). Qed.

Lemma node_without_pos_raises :
  Exists (fun na => dict_mem (snd na) "pos" = false) nodes ->
  exists k,
    In k (dict_keys nodes) /\ attribute nodes "pos" k = None /\
    interactive_visualization_of nodes es
    = raise (mk_exn KeyError (repr_str k)).
Proof.
  intros Hex. unfold interactive_visualization_of. fold pos.
  rewrite (G_nodes_known_edges nodes es Hkeys Hknown).
  rewrite (mapM_ok_map _ (node_value nodes "color")).
  2:{ apply Forall_forall. intros k Hk. apply attribute_but_pos; [exact Hk|].
      intros a Ha. apply Ha. }
  cbn [bind ok].
  rewrite (mapM_ok_map _ (node_value nodes "size")).
  2:{ apply Forall_forall. intros k Hk. apply attribute_but_pos; [exact Hk|].
      intros a Ha. apply Ha. }
  cbn [bind ok].
  destruct (edge_loop_or_KeyError (G_edges (build_graph nodes es))
              graph_edges_known ([], []))
    as [[[edge_x edge_y] ->]|(k & Hin & Hn & ->)];
    [|exists k; now repeat split].
  cbn [bind ok].
  destruct (mapM_first_raise
              (fun node => p <- getitem pos node ;; subscript p 0)
              (fun node => mk_exn KeyError (repr_str node))
              (dict_keys nodes)) as (k & Hin & Hk & ->).
  - apply Forall_forall. intros k Hk.
    destruct (position_or_KeyError _ Hk) as [(x & y & ->)|[_ ->]];
      [left; now eexists | now right].
  - apply Exists_exists in Hex as ([k a] & Hin & Hmiss). cbn [snd] in Hmiss.
    apply Exists_exists. exists k. split.
    + change k with (fst (k, a)). now apply in_map.
    + assert (Hk : In k (dict_keys nodes))
        by (change k with (fst (k, a)); now apply in_map).
      destruct (position_or_KeyError _ Hk) as [(x & y & Hp)|[_ ->]];
        [|reflexivity].
      exfalso. destruct (entry_but_pos k Hk) as (a' & Hget & Hnd & _).
      rewrite (In_dict_get _ _ _ Hkeys Hin) in Hget. injection Hget as <-.
      unfold getitem, pos in Hp.
      rewrite (pos_of_table_node nodes es k a Hkeys
                 (In_dict_get _ _ _ Hkeys Hin) Hnd) in Hp.
      unfold dict_mem in Hmiss.
      destruct (dict_get a "pos"); discriminate.
  - exists k. split; [exact Hin|]. split; [|reflexivity].
    destruct (position_or_KeyError _ Hin) as [(x & y & Hp)|[Hn _]];
      [|exact Hn].
    rewrite Hp in Hk. discriminate.
Qed.

End TablesWithoutPositions.

(** X6.  An entry of the node table without a ['pos'] makes the builder raise
    a [KeyError] that names a node without position, not the missing
    attribute: the node is absent from the positions read back from the
    graph, and the failing lookup is by node.  The identifiers are of plain
    text and the entries otherwise as the script writes them. *)
Theorem missing_pos_raises_KeyError_of_node nodes es :
  NoDup (dict_keys nodes) ->
  Forall (fun na => plain_text (fst na) = true /\ attrs_but_pos (snd na))
         nodes ->
  first_unknown nodes es = None ->
  Exists (fun na => dict_mem (snd na) "pos" = false) nodes ->
  exists k,
    In k (dict_keys nodes) /\ attribute nodes "pos" k = None /\
    interactive_visualization_of nodes es
    = raise (mk_exn KeyError (repr_str k)).
Proof.
  intros Hkeys Hattrs. apply (node_without_pos_raises nodes es Hkeys).
  apply Forall_forall. intros na Hna. rewrite Forall_forall in Hattrs.
  exact (proj2 (Hattrs na Hna)).
Qed.

Lemma missing_pos_raises_KeyError_of_node_witness :
  exists k,
    In k (dict_keys no_pos_for_b) /\ attribute no_pos_for_b "pos" k = None /\
    interactive_visualization_of no_pos_for_b [("a", "b")]
    = raise (mk_exn KeyError (repr_str k)).
Proof.
  apply (missing_pos_raises_KeyError_of_node no_pos_for_b [("a", "b")]).
  - apply (nodupb_NoDup String.eqb); [exact string_eqb_sound | reflexivity].
  - constructor; [|constructor; [|constructor]].
    + split; [reflexivity|]. split; [|split; [|repeat split]].
      * apply (nodupb_NoDup String.eqb);
          [exact string_eqb_sound | reflexivity].
      * intros v [= <-]. exists 0%Z, 0%Z. now repeat split.
    + split; [reflexivity|]. split; [|split; [|repeat split]].
      * apply (nodupb_NoDup String.eqb);
          [exact string_eqb_sound | reflexivity].
      * intros v [=].
  - reflexivity.
  - apply Exists_cons_tl, Exists_cons_hd. reflexivity.
Defined.
